(** * BlueHawk icon generator: a shallow embedding of [icons/create_icons.py]

    The script draws (or rasterises) the three extension icons.  The
    embedding keeps the script's own names and shape:

    - Python numbers: [int] objects are [Z]; [float] objects are the
      kernel's binary64 floats, so [size / 128], [85 * s] and
      [size * 0.19] are computed with the same IEEE-754 roundings CPython
      performs;
    - Pillow images: an image is its mode, its dimensions, its initial
      colour and the ordered list of shapes painted on it so far; which
      pixels a shape covers is decided by the rasteriser, a parameter of the
      pixel-level definitions;
    - the process: a world made of the file system and the lines printed so
      far, threaded through a state-and-exception monad. *)

From Stdlib Require Import ZArith Floats Lia List Ascii String.
From stdpp Require Import base option list strings pretty gmap.

#[local] Open Scope Z_scope.
#[local] Set Warnings "-inexact-float".

(** ** Python exceptions and the exception monad *)

Inductive exn : Type :=
| ValueError (msg : string)
| OverflowError (msg : string)
| IndexError (msg : string)
| OSError (msg : string)
| ImportError (msg : string)
| MemoryError.

Inductive result (A : Type) : Type :=
| Ok (a : A)
| Raise (e : exn).
Arguments Ok {A} a.
Arguments Raise {A} e.

#[global] Instance result_ret : MRet result := fun A a => Ok a.
#[global] Instance result_bind : MBind result := fun A B f m =>
  match m with
  | Ok a => f a
  | Raise e => Raise e
  end.

(** ** Python numbers *)

Module Py.

(** [float(z)] for an [int] [z]; exact whenever [|z| < 2^53]. *)
Definition float_of_int (z : Z) : float :=
  if z <? 0 then PrimFloat.opp (PrimFloat.of_uint63 (Uint63.of_Z (- z)))
  else PrimFloat.of_uint63 (Uint63.of_Z z).

(** [int(f)]: truncation towards zero.  CPython raises on an infinity or a
    NaN. *)
Definition int_checked (f : float) : result Z :=
  match Prim2SF f with
  | S754_zero _ => Ok 0
  | S754_finite sg m e =>
      let mag := if 0 <=? e then Z.pos m * 2 ^ e else Z.pos m / 2 ^ (- e) in
      Ok (if sg then - mag else mag)
  | S754_infinity _ => Raise (OverflowError "cannot convert float infinity to integer")
  | S754_nan => Raise (ValueError "cannot convert float NaN to integer")
  end.

(** The same truncation as a total function, for the call sites whose
    argument is a product of finite floats of moderate size (every call in
    this script, see [int_calls_finite] below). *)
Definition int (f : float) : Z :=
  match int_checked f with
  | Ok z => z
  | Raise _ => 0
  end.

(** [max(a, b)] on [int]s. *)
Definition max (a b : Z) : Z := Z.max a b.

End Py.

(** ** Pillow: colours, images and the drawing interface *)

Definition Color : Type := Z * Z * Z * Z.
Definition Box : Type := Z * Z * Z * Z.

Definition alpha (c : Color) : Z := snd c.

Module ImageColor.

Definition hex_digit (c : Ascii.ascii) : option Z :=
  let n := Z.of_N (Ascii.N_of_ascii c) in
  if (48 <=? n) && (n <=? 57) then Some (n - 48)
  else if (97 <=? n) && (n <=? 102) then Some (n - 87)
  else if (65 <=? n) && (n <=? 70) then Some (n - 55)
  else None.

Definition hex_byte (hi lo : Ascii.ascii) : option Z :=
  h ← hex_digit hi; l ← hex_digit lo; Some (16 * h + l).

(** [ImageColor.getrgb] on the [#rrggbb] form, the only one the script
    uses; any other string is rejected here. *)
Definition getrgb (color : string) : result (Z * Z * Z) :=
  match color with
  | String "#"%char (String r1 (String r0 (String g1 (String g0
      (String b1 (String b0 EmptyString)))))) =>
      match hex_byte r1 r0, hex_byte g1 g0, hex_byte b1 b0 with
      | Some r, Some g, Some b => Ok (r, g, b)
      | _, _, _ => Raise (ValueError "unknown color specifier")
      end
  | _ => Raise (ValueError "unknown color specifier")
  end.

End ImageColor.

(** What a drawing call paints, before rasterisation. *)
Inductive Shape : Type :=
| RoundedRect (xy : Box) (radius : Z)
| Polygon (xy : list (Z * Z))
| EllipseFill (xy : Box)
| EllipseOutline (xy : Box) (width : Z)
| RectFill (xy : Box).

Record Layer : Type := { shape : Shape; ink : Color }.

(** An image: [Image.new] fixes mode, dimensions and the initial colour of
    every pixel; each drawing call appends one layer (later layers are
    painted over earlier ones). *)
Record Image : Type := {
  mode : string;
  width : Z;
  height : Z;
  background : Color;
  layers : list Layer
}.

Module PIL.

(** [Image.new(mode, (w, h), color)].  Pillow rejects negative dimensions,
    dimensions that do not fit a C [int], and a width above [INT_MAX / 4 - 1]
    (its line-size overflow check, a [MemoryError]).  Below that bound the
    allocation itself can still fail for lack of memory; that depends on the
    machine and is not modelled, so what is stated of sizes beyond those
    checked by evaluation is stated of the calls that return. *)
Definition Image_new (mode : string) (size : Z * Z) (color : Color)
  : result Image :=
  let '(w, h) := size in
  if (w <? 0) || (h <? 0) then
    Raise (ValueError "Width and height must be >= 0")
  else if (2 ^ 63 <=? w) || (2 ^ 63 <=? h) then
    Raise (OverflowError "Python int too large to convert to C long")
  else if (2 ^ 31 <=? w) || (2 ^ 31 <=? h) then
    Raise (OverflowError "signed integer is greater than maximum")
  else if 2 ^ 29 - 2 <? w then
    Raise MemoryError
  else
    Ok {| mode := mode; width := w; height := h;
          background := color; layers := [] |}.

(** The ink of a colour string on an RGBA image: opaque. *)
Definition getink (color : string) : result Color :=
  '(r, g, b) ← ImageColor.getrgb color; Ok (r, g, b, 255).

(** The ink a drawing call uses when it is given no colour at all. *)
Definition default_ink : Color := (255, 255, 255, 255).

Definition getink_opt (color : option string) : result (option Color) :=
  match color with
  | None => Ok None
  | Some c => c' ← getink c; Ok (Some c')
  end.

(** Recent Pillow releases refuse a box whose corners are out of order. *)
Definition check_box (xy : Box) : result unit :=
  let '(x0, y0, x1, y1) := xy in
  if x1 <? x0 then Raise (ValueError "x1 must be greater than or equal to x0")
  else if y1 <? y0 then Raise (ValueError "y1 must be greater than or equal to y0")
  else Ok tt.

Definition add_layer (img : Image) (sh : Shape) (c : Color) : Image :=
  {| mode := mode img; width := width img; height := height img;
     background := background img;
     layers := layers img ++ [ {| shape := sh; ink := c |} ] |}.

(** A filled shape, then its outline when an outline colour is given, it
    differs from the fill and the width is not zero. *)
Definition fill_then_outline (img : Image) (filled outlined : Shape)
    (fill outline : option Color) (width : Z) : Image :=
  let img := match fill with
             | Some c => add_layer img filled c
             | None => img
             end in
  match outline with
  | Some c =>
      if bool_decide (fill = Some c) || (width =? 0) then img
      else add_layer img outlined c
  | None => img
  end.

(** [draw.rounded_rectangle(xy, radius=radius, fill=fill)] *)
Definition rounded_rectangle (img : Image) (xy : Box) (radius : Z)
    (fill : string) : result Image :=
  _ ← check_box xy;
  c ← getink fill;
  Ok (add_layer img (RoundedRect xy radius) c).

(** [draw.polygon(xy, fill=fill)] *)
Definition polygon (img : Image) (xy : list (Z * Z)) (fill : string)
  : result Image :=
  c ← getink fill;
  Ok (add_layer img (Polygon xy) c).

(** [draw.ellipse(xy, fill=fill, outline=outline, width=width)] *)
Definition ellipse (img : Image) (xy : Box) (fill outline : option string)
    (width : Z) : result Image :=
  _ ← check_box xy;
  f ← getink_opt fill;
  o ← getink_opt outline;
  let o := match f, o with
           | None, None => Some default_ink
           | _, _ => o
           end in
  Ok (fill_then_outline img (EllipseFill xy) (EllipseOutline xy width) f o width).

(** [draw.rectangle(xy, fill=fill)] *)
Definition rectangle (img : Image) (xy : Box) (fill : string)
  : result Image :=
  _ ← check_box xy;
  c ← getink fill;
  Ok (add_layer img (RectFill xy) c).

End PIL.

(** ** [create_hawk_icon_pil]: the procedural icon *)

Module Hawk.
Section locals.

Variable size : Z.

(** Corner radius of the background. *)
Definition radius : Z := Py.int (Py.float_of_int size * 0.19)%float.

(** Scale factor. *)
Definition s : float := (Py.float_of_int size / 128)%float.

Definition hawk_color : string := "#f59e0b".

(** Head *)
Definition head_points : list (Z * Z) := [
  (Py.int (85 * s)%float, Py.int (30 * s)%float);
  (Py.int (100 * s)%float, Py.int (45 * s)%float);
  (Py.int (90 * s)%float, Py.int (55 * s)%float);
  (Py.int (75 * s)%float, Py.int (50 * s)%float);
  (Py.int (65 * s)%float, Py.int (40 * s)%float);
  (Py.int (70 * s)%float, Py.int (28 * s)%float)
].

(** Body *)
Definition body_points : list (Z * Z) := [
  (Py.int (65 * s)%float, Py.int (40 * s)%float);
  (Py.int (50 * s)%float, Py.int (55 * s)%float);
  (Py.int (45 * s)%float, Py.int (75 * s)%float);
  (Py.int (55 * s)%float, Py.int (90 * s)%float);
  (Py.int (80 * s)%float, Py.int (85 * s)%float);
  (Py.int (90 * s)%float, Py.int (70 * s)%float);
  (Py.int (85 * s)%float, Py.int (55 * s)%float);
  (Py.int (75 * s)%float, Py.int (50 * s)%float)
].

(** Eye *)
Definition eye_x : Z := Py.int (82 * s)%float.
Definition eye_y : Z := Py.int (38 * s)%float.
Definition eye_r : Z := Py.max 2 (Py.int (4 * s)%float).

(** Key symbol *)
Definition key_color : string := "#22c55e".
Definition key_y : Z := Py.int (95 * s)%float.
Definition key_x : Z := Py.int (25 * s)%float.
Definition key_r : Z := Py.max 3 (Py.int (8 * s)%float).
Definition key_w : Z := Py.max 2 (Py.int (3 * s)%float).

(** Key shaft *)
Definition shaft_start : Z := key_x + key_r.
Definition shaft_end : Z := Py.int (65 * s)%float.

(** Key teeth *)
Definition tooth_w : Z := Py.max 2 (Py.int (3 * s)%float).
Definition tooth_h : Z := Py.max 3 (Py.int (6 * s)%float).

(** The function itself; [draw = ImageDraw.Draw(img)] draws into [img]. *)
Definition create_hawk_icon_pil : result Image :=
  img ← PIL.Image_new "RGBA" (size, size) (0, 0, 0, 0);
  img ← PIL.rounded_rectangle img (0, 0, size - 1, size - 1) radius "#1e3a5f";
  img ← PIL.polygon img head_points hawk_color;
  img ← PIL.polygon img body_points hawk_color;
  img ← PIL.ellipse img
          (eye_x - eye_r, eye_y - eye_r, eye_x + eye_r, eye_y + eye_r)
          (Some "#0d1b2a") None 1;
  img ← PIL.ellipse img
          (key_x - key_r, key_y - key_r, key_x + key_r, key_y + key_r)
          None (Some key_color) key_w;
  img ← PIL.rectangle img
          (shaft_start, key_y - key_w, shaft_end, key_y + key_w) key_color;
  img ← PIL.rectangle img
          (shaft_end - tooth_w * 3, key_y - key_w - tooth_h,
           shaft_end - tooth_w * 2, key_y - key_w) key_color;
  img ← PIL.rectangle img
          (shaft_end - tooth_w, key_y - key_w - tooth_h,
           shaft_end, key_y - key_w) key_color;
  Ok img.

End locals.
End Hawk.

Definition create_hawk_icon_pil : Z → result Image := Hawk.create_hawk_icon_pil.

(** The sizes both generation loops iterate over. *)
Definition sizes : list Z := [16; 48; 128].

(** ** Pixels

    What a pixel holds depends on the rasteriser: [covers sh x y] says
    whether shape [sh] paints pixel [(x, y)].  On an RGBA image Pillow's
    drawing calls store the ink in every covered pixel (no blending), so a
    pixel holds the ink of the last layer covering it. *)

Section pixels.

Variable covers : Shape → Z → Z → bool.

Definition in_canvas (img : Image) (x y : Z) : bool :=
  (0 <=? x) && (x <? width img) && (0 <=? y) && (y <? height img).

Definition paint (x y : Z) (c : Color) (l : Layer) : Color :=
  if covers (shape l) x y then ink l else c.

Definition pixel (img : Image) (x y : Z) : Color :=
  fold_left (paint x y) (layers img) (background img).

(** The front-most layer covering a pixel, if any. *)
Definition topmost (ls : list Layer) (x y : Z) : option Layer :=
  find (λ l, covers (shape l) x y) (rev ls).

End pixels.

(** An idealised rasteriser: a pixel is covered when its centre satisfies the
    shape's equation (rectangles with inclusive corners, ellipses inscribed
    in their box, quarter discs at the corners of a rounded rectangle, the
    even-odd rule for polygons). *)
Module Ideal.

Definition in_box (xy : Box) (x y : Z) : bool :=
  let '(x0, y0, x1, y1) := xy in
  (x0 <=? x) && (x <=? x1) && (y0 <=? y) && (y <=? y1).

Definition in_ellipse (xy : Box) (x y : Z) : bool :=
  let '(x0, y0, x1, y1) := xy in
  let w := x1 - x0 in
  let h := y1 - y0 in
  let dx := 2 * x - x0 - x1 in
  let dy := 2 * y - y0 - y1 in
  in_box xy x y && (dx * dx * h * h + dy * dy * w * w <=? w * w * h * h).

Definition shrink (xy : Box) (d : Z) : Box :=
  let '(x0, y0, x1, y1) := xy in (x0 + d, y0 + d, x1 - d, y1 - d).

Definition in_rounded (xy : Box) (r : Z) (x y : Z) : bool :=
  let '(x0, y0, x1, y1) := xy in
  let cx := if x <? x0 + r then x0 + r else if x1 - r <? x then x1 - r else x in
  let cy := if y <? y0 + r then y0 + r else if y1 - r <? y then y1 - r else y in
  in_box xy x y && ((x - cx) * (x - cx) + (y - cy) * (y - cy) <=? r * r).

(** Does the horizontal ray from [(x, y)] to the right cross the edge
    from [a] to [b]? *)
Definition crosses (x y : Z) (a b : Z * Z) : bool :=
  let '(xa, ya) := a in
  let '(xb, yb) := b in
  if (ya <=? y) && (y <? yb) then (x - xa) * (yb - ya) <? (xb - xa) * (y - ya)
  else if (yb <=? y) && (y <? ya) then (xb - xa) * (y - ya) <? (x - xa) * (yb - ya)
  else false.

Fixpoint crossings (x y : Z) (first : Z * Z) (pts : list (Z * Z)) : bool :=
  match pts with
  | [] => false
  | [a] => crosses x y a first
  | a :: (b :: _) as rest => xorb (crosses x y a b) (crossings x y first rest)
  end.

Definition in_polygon (pts : list (Z * Z)) (x y : Z) : bool :=
  match pts with
  | [] => false
  | first :: _ => crossings x y first pts
  end.

Definition covers (sh : Shape) (x y : Z) : bool :=
  match sh with
  | RoundedRect xy r => in_rounded xy r x y
  | Polygon pts => in_polygon pts x y
  | EllipseFill xy => in_ellipse xy x y
  | EllipseOutline xy w => in_ellipse xy x y && negb (in_ellipse (shrink xy w) x y)
  | RectFill xy => in_box xy x y
  end.

End Ideal.

(** ** The process: files, standard output, exceptions *)

(** What a file holds. *)
Inductive Blob : Type :=
| Data (bytes : string)                (* a file the script did not produce *)
| PngOfImage (img : Image)             (* written by [icon.save(path, 'PNG')] *)
| PngOfSvg (src : Blob) (w h : Z).     (* written by [cairosvg.svg2png] *)

Record World : Type := {
  fs : gmap string Blob;
  stdout : list string
}.

(** What the script cannot decide by itself. *)
Record Env : Type := {
  SCRIPT_DIR : string;
  (** can the process create or overwrite this file? *)
  writable : string → bool;
  (** does cairosvg manage to render this source? *)
  renders : Blob → bool
}.

Definition IO (A : Type) : Type := World → result A * World.

#[global] Instance IO_ret : MRet IO := λ A a w, (Ok a, w).
#[global] Instance IO_bind : MBind IO := λ A B f m w,
  match m w with
  | (Ok a, w') => f a w'
  | (Raise e, w') => (Raise e, w')
  end.

(** [raise e] *)
Definition raise {A} (e : exn) : IO A := λ w, (Raise e, w).

(** An exception of a pure computation propagates. *)
Definition lift {A} (r : result A) : IO A := λ w, (r, w).

(** [for x in l: body(x)] *)
Fixpoint for_each {A} (l : list A) (body : A → IO unit) : IO unit :=
  match l with
  | [] => mret tt
  | x :: l' => body x ≫= λ _, for_each l' body
  end.

Definition print (line : string) : IO unit := λ w,
  (Ok tt, {| fs := fs w; stdout := stdout w ++ [line] |}).

Module os_path.

Fixpoint endswith_sep (a : string) : bool :=
  match a with
  | EmptyString => false
  | String c EmptyString => bool_decide (c = "/"%char)
  | String _ rest => endswith_sep rest
  end.

Definition startswith_sep (b : string) : bool :=
  match b with
  | String c _ => bool_decide (c = "/"%char)
  | EmptyString => false
  end.

(** [os.path.join(a, b)] on POSIX. *)
Definition join (a b : string) : string :=
  if startswith_sep b then b
  else if bool_decide (a = "") || endswith_sep a then a +:+ b
  else a +:+ "/" +:+ b.

(** [os.path.exists(path)] *)
Definition exists_ (path : string) : IO bool := λ w,
  (Ok (bool_decide (is_Some (fs w !! path))), w).

End os_path.

Definition write_file (env : Env) (path : string) (b : Blob) : IO unit := λ w,
  if writable env path then
    (Ok tt, {| fs := <[path := b]> (fs w); stdout := stdout w |})
  else (Raise (OSError "Permission denied"), w).

(** [cairosvg.svg2png(url=..., write_to=..., output_width=..., output_height=...)] *)
Definition cairosvg_svg2png (env : Env) (url write_to : string)
    (output_width output_height : Z) : IO unit := λ w,
  match fs w !! url with
  | None => (Raise (OSError "No such file or directory"), w)
  | Some src =>
      if renders env src then
        write_file env write_to (PngOfSvg src output_width output_height) w
      else (Raise (ValueError "cannot render the SVG source"), w)
  end.

(** [icon.save(output_path, 'PNG')] *)
Definition Image_save (env : Env) (icon : Image) (output_path : string) : IO unit :=
  write_file env output_path (PngOfImage icon).

(** The f-string [f'icon{size}.png']. *)
Definition icon_name (size : Z) : string := "icon" +:+ pretty size +:+ ".png".

Section script.

Variable env : Env.

Definition svg_path : string := os_path.join (SCRIPT_DIR env) "icon.svg".

Definition output_path (size : Z) : string :=
  os_path.join (SCRIPT_DIR env) (icon_name size).

Definition create_icons_from_svg : IO bool :=
  found ← os_path.exists_ svg_path;
  if negb found then
    print ("SVG file not found: " +:+ svg_path) ≫= λ _,
    mret false
  else
    let sizes := [16; 48; 128] in
    for_each sizes (λ size,
      cairosvg_svg2png env svg_path (output_path size) size size ≫= λ _,
      print ("Created icon" +:+ pretty size +:+ ".png from SVG")) ≫= λ _,
    mret true.

Definition create_icons_with_pil : IO bool :=
  let sizes := [16; 48; 128] in
  for_each sizes (λ size,
    icon ← lift (create_hawk_icon_pil size);
    Image_save env icon (output_path size) ≫= λ _,
    print ("Created icon" +:+ pretty size +:+ ".png using PIL")) ≫= λ _,
  mret true.

(** [HAS_CAIROSVG] is fixed when the module is loaded, by whether
    [import cairosvg] succeeds. *)
Definition main (HAS_CAIROSVG : bool) : IO unit :=
  print "Creating BlueHawk API Key Finder icons..." ≫= λ _,
  (if HAS_CAIROSVG then
     success ← create_icons_from_svg;
     if negb success then
       print "Falling back to PIL..." ≫= λ _,
       create_icons_with_pil ≫= λ _, mret tt
     else mret tt
   else
     create_icons_with_pil ≫= λ _, mret tt) ≫= λ _,
  print "Done! Icons created successfully.".

(** The module's top level once the [try] block is through, followed by
    [main()]: [imported] says whether [import cairosvg] succeeded, the other
    case being the [ImportError] the [except] clause catches. *)
Definition after_import (imported : bool) : IO unit :=
  (if imported then mret true
   else print "cairosvg not available, using PIL fallback" ≫= λ _,
        mret false) ≫= λ HAS_CAIROSVG,
  main HAS_CAIROSVG.

(** The whole script, from what [import cairosvg] does: it succeeds, it
    raises [ImportError] (a missing module included), which line 14 catches,
    or it raises anything else (a shared library that cannot be loaded
    raises [OSError]), which nothing catches: the script ends there.  Pillow
    itself is taken to be installed: without it the script stops at its
    import line in the same way. *)
Definition run (import_cairosvg : result unit) : IO unit :=
  match import_cairosvg with
  | Ok _ => after_import true
  | Raise (ImportError _) => after_import false
  | Raise e => raise e
  end.

End script.

(** ** Vocabulary of the statements *)

(** The vertex lists as the source writes them, in the 128-unit space. *)
Definition head_vertices : list (Z * Z) :=
  [(85, 30); (100, 45); (90, 55); (75, 50); (65, 40); (70, 28)].

Definition body_vertices : list (Z * Z) :=
  [(65, 40); (50, 55); (45, 75); (55, 90); (80, 85); (90, 70); (85, 55); (75, 50)].

(** [(x * size / 128, y * size / 128)], each coordinate truncated towards
    zero, in exact integer arithmetic. *)
Definition scale_trunc (size : Z) (v : Z * Z) : Z * Z :=
  ((fst v * size) ÷ 128, (snd v * size) ÷ 128).

(** The lengths the script scales (corner radius, eye and ring radii, outline
    and tooth widths, tooth height), each with the truncated scaled value it
    starts from: [(int(scaled value), value used for drawing)]. *)
Definition scaled_lengths (size : Z) : list (Z * Z) := [
  (Py.int (Py.float_of_int size * 0.19)%float, Hawk.radius size);
  (Py.int (4 * Hawk.s size)%float, Hawk.eye_r size);
  (Py.int (8 * Hawk.s size)%float, Hawk.key_r size);
  (Py.int (3 * Hawk.s size)%float, Hawk.key_w size);
  (Py.int (3 * Hawk.s size)%float, Hawk.tooth_w size);
  (Py.int (6 * Hawk.s size)%float, Hawk.tooth_h size)
].

(** The boxes of the drawing calls. *)
Definition background_box (size : Z) : Box := (0, 0, size - 1, size - 1).

Definition eye_box (size : Z) : Box :=
  (Hawk.eye_x size - Hawk.eye_r size, Hawk.eye_y size - Hawk.eye_r size,
   Hawk.eye_x size + Hawk.eye_r size, Hawk.eye_y size + Hawk.eye_r size).

Definition ring_box (size : Z) : Box :=
  (Hawk.key_x size - Hawk.key_r size, Hawk.key_y size - Hawk.key_r size,
   Hawk.key_x size + Hawk.key_r size, Hawk.key_y size + Hawk.key_r size).

Definition shaft_box (size : Z) : Box :=
  (Hawk.shaft_start size, Hawk.key_y size - Hawk.key_w size,
   Hawk.shaft_end size, Hawk.key_y size + Hawk.key_w size).

Definition left_tooth_box (size : Z) : Box :=
  (Hawk.shaft_end size - Hawk.tooth_w size * 3,
   Hawk.key_y size - Hawk.key_w size - Hawk.tooth_h size,
   Hawk.shaft_end size - Hawk.tooth_w size * 2,
   Hawk.key_y size - Hawk.key_w size).

Definition right_tooth_box (size : Z) : Box :=
  (Hawk.shaft_end size - Hawk.tooth_w size,
   Hawk.key_y size - Hawk.key_w size - Hawk.tooth_h size,
   Hawk.shaft_end size,
   Hawk.key_y size - Hawk.key_w size).

(** Back to front: background, head, body, eye, key ring, key shaft, the two
    teeth. *)
Definition z_order (size : Z) : list Shape := [
  RoundedRect (background_box size) (Hawk.radius size);
  Polygon (Hawk.head_points size);
  Polygon (Hawk.body_points size);
  EllipseFill (eye_box size);
  EllipseOutline (ring_box size) (Hawk.key_w size);
  RectFill (shaft_box size);
  RectFill (left_tooth_box size);
  RectFill (right_tooth_box size)
].

(** A box with its corners in order. *)
Definition well_formed (xy : Box) : Prop :=
  let '(x0, y0, x1, y1) := xy in x0 ≤ x1 ∧ y0 ≤ y1.

(** A box of positive extent in both directions. *)
Definition non_degenerate (xy : Box) : Prop :=
  let '(x0, y0, x1, y1) := xy in x0 < x1 ∧ y0 < y1.

Definition point_in_bounds (size : Z) (p : Z * Z) : Prop :=
  0 ≤ fst p ≤ size - 1 ∧ 0 ≤ snd p ≤ size - 1.

Definition box_in_bounds (size : Z) (xy : Box) : Prop :=
  let '(x0, y0, x1, y1) := xy in
  point_in_bounds size (x0, y0) ∧ point_in_bounds size (x1, y1).

(** What "well-formed and inside the canvas" means for each kind of shape. *)
Definition shape_ok (size : Z) (sh : Shape) : Prop :=
  match sh with
  | RoundedRect xy _ | EllipseFill xy | EllipseOutline xy _ | RectFill xy =>
      well_formed xy ∧ box_in_bounds size xy
  | Polygon pts => Forall (point_in_bounds size) pts
  end.

(** The rasteriser fills the full-height band between the corner columns of
    a rounded rectangle whose corners do not meet. *)
Definition fills_band (covers : Shape → Z → Z → bool) : Prop :=
  ∀ x0 y0 x1 y1 r x y,
    0 < r → 2 * r + 2 < x1 - x0 →
    x0 + r < x < x1 - r → y0 ≤ y ≤ y1 →
    covers (RoundedRect (x0, y0, x1, y1) r) x y = true.

(** An environment in which every external call succeeds, and two worlds:
    an empty directory, and one holding a vector source. *)
Definition env0 : Env :=
  {| SCRIPT_DIR := "/ext/icons"; writable := λ _, true; renders := λ _, true |}.

Definition w0 : World := {| fs := ∅; stdout := [] |}.

Definition w_svg : World :=
  {| fs := {[ "/ext/icons/icon.svg" := Data "<svg/>" ]};
     stdout := [] |}.

(** The floats the script hands to [int]. *)
Definition int_arguments (size : Z) : list float :=
  (Py.float_of_int size * 0.19)%float ::
  map (λ k : Z, (Py.float_of_int k * Hawk.s size)%float)
      [85; 30; 100; 45; 90; 55; 75; 50; 65; 40; 70; 28; 80; 82; 38; 4; 95; 25; 8; 3; 6].

Definition procedural_lines : list string :=
  ["Created icon16.png using PIL"; "Created icon48.png using PIL";
   "Created icon128.png using PIL"].

Definition vector_lines : list string :=
  ["Created icon16.png from SVG"; "Created icon48.png from SVG";
   "Created icon128.png from SVG"].

(** The files after the procedural path has written its three icons over the
    files [m]. *)
Definition procedural_files (env : Env) (m m' : gmap string Blob) : Prop :=
  ∃ i16 i48 i128,
    create_hawk_icon_pil 16 = Ok i16 ∧
    create_hawk_icon_pil 48 = Ok i48 ∧
    create_hawk_icon_pil 128 = Ok i128 ∧
    m' = <[output_path env 128 := PngOfImage i128]>
           (<[output_path env 48 := PngOfImage i48]>
              (<[output_path env 16 := PngOfImage i16]> m)).


(** Every icon file may be written. *)
Definition outputs_writable (env : Env) : Prop :=
  ∀ size, In size sizes → writable env (output_path env size) = true.

(** ** Vocabulary of the further properties *)

(** Does the function return an image at this size? *)
Definition returns (size : Z) : bool :=
  match create_hawk_icon_pil size with
  | Ok _ => true
  | Raise _ => false
  end.

(** Boolean counterparts of [shape_ok]. *)
Definition point_okb (size : Z) (p : Z * Z) : bool :=
  (0 <=? fst p) && (fst p <=? size - 1) && (0 <=? snd p) && (snd p <=? size - 1).

Definition box_okb (size : Z) (xy : Box) : bool :=
  let '(x0, y0, x1, y1) := xy in
  (x0 <=? x1) && (y0 <=? y1) && point_okb size (x0, y0) && point_okb size (x1, y1).

Definition shape_okb (size : Z) (sh : Shape) : bool :=
  match sh with
  | RoundedRect xy _ | EllipseFill xy | EllipseOutline xy _ | RectFill xy =>
      box_okb size xy
  | Polygon pts => forallb (point_okb size) pts
  end.

(** [k * size / 128] truncated, in exact integer arithmetic. *)
Definition scaled (k size : Z) : Z := (k * size) ÷ 128.

(** Every quantity [create_hawk_icon_pil] computes, next to its value in
    exact integer arithmetic. *)
Definition integer_geometry (size : Z) : Prop :=
  Hawk.radius size = (19 * size) ÷ 100 ∧
  Hawk.head_points size = map (scale_trunc size) head_vertices ∧
  Hawk.body_points size = map (scale_trunc size) body_vertices ∧
  Hawk.eye_x size = scaled 82 size ∧
  Hawk.eye_y size = scaled 38 size ∧
  Hawk.eye_r size = Z.max 2 (scaled 4 size) ∧
  Hawk.key_y size = scaled 95 size ∧
  Hawk.key_x size = scaled 25 size ∧
  Hawk.key_r size = Z.max 3 (scaled 8 size) ∧
  Hawk.key_w size = Z.max 2 (scaled 3 size) ∧
  Hawk.shaft_end size = scaled 65 size ∧
  Hawk.tooth_w size = Z.max 2 (scaled 3 size) ∧
  Hawk.tooth_h size = Z.max 3 (scaled 6 size).

Definition integer_geometryb (size : Z) : bool :=
  (Hawk.radius size =? (19 * size) ÷ 100) &&
  bool_decide (Hawk.head_points size = map (scale_trunc size) head_vertices) &&
  bool_decide (Hawk.body_points size = map (scale_trunc size) body_vertices) &&
  (Hawk.eye_x size =? scaled 82 size) &&
  (Hawk.eye_y size =? scaled 38 size) &&
  (Hawk.eye_r size =? Z.max 2 (scaled 4 size)) &&
  (Hawk.key_y size =? scaled 95 size) &&
  (Hawk.key_x size =? scaled 25 size) &&
  (Hawk.key_r size =? Z.max 3 (scaled 8 size)) &&
  (Hawk.key_w size =? Z.max 2 (scaled 3 size)) &&
  (Hawk.shaft_end size =? scaled 65 size) &&
  (Hawk.tooth_w size =? Z.max 2 (scaled 3 size)) &&
  (Hawk.tooth_h size =? Z.max 3 (scaled 6 size)).

(** Does [int] accept this float? *)
Definition converts (f : float) : bool :=
  match Py.int_checked f with
  | Ok _ => true
  | Raise _ => false
  end.

(** What is checked, size by size, over a range: the integer geometry, that
    the function returns exactly from size 8 on, that every shape is inside
    the canvas exactly from size 16 on, that [int] is handed finite floats
    only. *)
Definition size_check (size : Z) : bool :=
  integer_geometryb size &&
  Bool.eqb (returns size) (8 <=? size) &&
  Bool.eqb (forallb (shape_okb size) (z_order size)) (16 <=? size) &&
  forallb converts (int_arguments size).

(** [p lo && p (lo + 1) && ... && p (lo + n - 1)] *)
Fixpoint all_from (p : Z → bool) (lo : Z) (n : nat) : bool :=
  match n with
  | O => true
  | S n' => p lo && all_from p (lo + 1) n'
  end.

(** The largest size of the checked range. *)
Definition max_checked : Z := 1024.

(** The colours a pixel of the icon can hold. *)
Definition palette : list Color :=
  [(0, 0, 0, 0); (0x1e, 0x3a, 0x5f, 255); (0xf5, 0x9e, 0x0b, 255);
   (0x0d, 0x1b, 0x2a, 255); (0x22, 0xc5, 0x5e, 255)].

(** The inks of the eight layers, back to front. *)
Definition layer_inks : list Color :=
  [(0x1e, 0x3a, 0x5f, 255); (0xf5, 0x9e, 0x0b, 255); (0xf5, 0x9e, 0x0b, 255);
   (0x0d, 0x1b, 0x2a, 255); (0x22, 0xc5, 0x5e, 255); (0x22, 0xc5, 0x5e, 255);
   (0x22, 0xc5, 0x5e, 255); (0x22, 0xc5, 0x5e, 255)].

(** One of the three icon files. *)
Definition is_output (env : Env) (path : string) : Prop :=
  ∃ size, In size sizes ∧ path = output_path env size.

Definition done_line : string := "Done! Icons created successfully.".

(** An action that, whatever its outcome, leaves every file but the icon
    files alone and only adds lines to the output, each of them allowed. *)
Definition contained {A} (env : Env) (allowed : string → Prop) (m : IO A) : Prop :=
  ∀ w r w', m w = (r, w') →
    (∀ path, ¬ is_output env path → fs w' !! path = fs w !! path) ∧
    ∃ lines, stdout w' = stdout w ++ lines ∧ Forall allowed lines.

(** The files once the given icons are written, in order. *)
Definition write_icons (env : Env) (icons : list (Z * Image))
    (m : gmap string Blob) : gmap string Blob :=
  fold_left (λ m' icon, <[output_path env (fst icon) := PngOfImage (snd icon)]> m')
            icons m.

(** An environment in which only [icon16.png] may be written, and one in
    which cairosvg cannot render. *)
Definition env_16_only : Env :=
  {| SCRIPT_DIR := "/ext/icons";
     writable := λ path, bool_decide (path = "/ext/icons/icon16.png");
     renders := λ _, true |}.

Definition env_no_render : Env :=
  {| SCRIPT_DIR := "/ext/icons"; writable := λ _, true; renders := λ _, false |}.

(** ** Basic facts *)

Lemma sizes_cases (size : Z) : In size sizes → size = 16 ∨ size = 48 ∨ size = 128.
Proof. unfold sizes; simpl; intuition. Qed.

(** The colour strings of the script and their inks. *)
Lemma getink_background : PIL.getink "#1e3a5f" = Ok (0x1e, 0x3a, 0x5f, 255).
Proof. reflexivity. Qed.

Lemma getink_hawk : PIL.getink Hawk.hawk_color = Ok (0xf5, 0x9e, 0x0b, 255).
Proof. reflexivity. Qed.

Lemma getink_eye : PIL.getink "#0d1b2a" = Ok (0x0d, 0x1b, 0x2a, 255).
Proof. reflexivity. Qed.

Lemma getink_key : PIL.getink Hawk.key_color = Ok (0x22, 0xc5, 0x5e, 255).
Proof. reflexivity. Qed.

(** Every float handed to [int] at the three sizes is finite, so the total
    [Py.int] agrees with Python's [int] at each call site. *)
Lemma int_calls_finite (size : Z) :
  In size sizes →
  Forall (λ f, Py.int_checked f = Ok (Py.int f)) (int_arguments size).
Proof.
  intros Hs. unfold int_arguments. cbn [map].
  destruct (sizes_cases size Hs) as [-> | [-> | ->]];
    repeat (constructor; [vm_compute; reflexivity |]); constructor.
Qed.

(** The clamp of [max]. *)
Lemma max_lower (m v : Z) : m ≤ Py.max m v.
Proof. unfold Py.max; lia. Qed.

(** ** Scaled dimensions *)

(** C3. At every size of the set the eye radius is at least 2, the key-ring
    radius at least 3, the key outline width and the tooth width at least 2
    and the tooth height at least 3; the shaft and tooth rectangles extend
    over at least 2 pixels in each direction; and every scaled length is at
    least 2 pixels, those whose truncated scaled value falls below 2 being
    drawn with their minimum of 2 or 3 pixels. *)
Theorem clamped_minimums (size : Z) :
  In size sizes →
  2 ≤ Hawk.eye_r size ∧ 3 ≤ Hawk.key_r size ∧
  2 ≤ Hawk.key_w size ∧ 2 ≤ Hawk.tooth_w size ∧ 3 ≤ Hawk.tooth_h size ∧
  Forall (λ xy : Box, let '(x0, y0, x1, y1) := xy in 2 ≤ x1 - x0 ∧ 2 ≤ y1 - y0)
         [shaft_box size; left_tooth_box size; right_tooth_box size] ∧
  Forall (λ d, 2 ≤ snd d ∧ (fst d < 2 → snd d ≤ 3)) (scaled_lengths size).
Proof.
  intros Hs. do 5 (split; [apply max_lower |]).
  destruct (sizes_cases size Hs) as [-> | [-> | ->]];
    vm_compute; repeat constructor; congruence.
Qed.

Lemma clamped_minimums_witness :
  In 16 sizes ∧ Hawk.eye_r 16 = 2 ∧ Hawk.key_r 16 = 3 ∧ 2 ≤ Hawk.tooth_w 16.
Proof.
  split; [simpl; lia |].
  split; [reflexivity |]. split; [reflexivity |].
  apply (clamped_minimums 16); simpl; lia.
Defined.

(** C4. At every size of the set, each vertex handed to [draw.polygon] is
    the hard-coded vertex scaled by [size/128] and truncated to integers. *)
Theorem polygon_vertices_scaled (size : Z) :
  In size sizes →
  Hawk.head_points size = map (scale_trunc size) head_vertices ∧
  Hawk.body_points size = map (scale_trunc size) body_vertices ∧
  ∃ img, create_hawk_icon_pil size = Ok img ∧
         shape <$> layers img !! 1%nat
           = Some (Polygon (map (scale_trunc size) head_vertices)) ∧
         shape <$> layers img !! 2%nat
           = Some (Polygon (map (scale_trunc size) body_vertices)).
Proof.
  intros Hs. destruct (sizes_cases size Hs) as [-> | [-> | ->]];
    (split; [reflexivity |]); (split; [reflexivity |]);
    (eexists; split; [vm_compute; reflexivity |]); split; reflexivity.
Qed.

Lemma polygon_vertices_scaled_witness :
  In 16 sizes ∧
  Hawk.head_points 16 = [(10, 3); (12, 5); (11, 6); (9, 6); (8, 5); (8, 3)].
Proof.
  split; [simpl; lia |].
  rewrite (proj1 (polygon_vertices_scaled 16 ltac:(simpl; lia))).
  reflexivity.
Defined.

(** ** Background and colours *)

(** C5, as stated, fails at size 16: the radius handed to
    [draw.rounded_rectangle] is 3, while 0.19 × 16 = 3.04. *)
Lemma background_radius_not_exact :
  ∃ img, create_hawk_icon_pil 16 = Ok img ∧
         shape <$> layers img !! 0%nat = Some (RoundedRect (0, 0, 15, 15) 3) ∧
         100 * 3 ≠ 19 * 16.
Proof.
  eexists; split; [vm_compute; reflexivity |].
  split; [reflexivity | lia].
Qed.

(** C5, amended. At every size of the set the first thing drawn is a rounded
    rectangle over the whole canvas, from (0, 0) to (size-1, size-1), whose
    corner radius is 0.19 × size truncated to an integer, in the opaque ink of
    [#1e3a5f]; and every polygon drawn (the head and the body) has the opaque
    ink of [#f59e0b]. *)
Theorem background_and_silhouette (size : Z) :
  In size sizes →
  ∃ img, create_hawk_icon_pil size = Ok img ∧
         layers img !! 0%nat
           = Some {| shape := RoundedRect (0, 0, width img - 1, height img - 1)
                                          ((19 * size) ÷ 100);
                     ink := (0x1e, 0x3a, 0x5f, 255) |} ∧
         shape <$> layers img !! 1%nat = Some (Polygon (Hawk.head_points size)) ∧
         shape <$> layers img !! 2%nat = Some (Polygon (Hawk.body_points size)) ∧
         ∀ l pts, In l (layers img) → shape l = Polygon pts →
                  ink l = (0xf5, 0x9e, 0x0b, 255).
Proof.
  intros Hs. destruct (sizes_cases size Hs) as [-> | [-> | ->]];
    (eexists; split; [vm_compute; reflexivity |]);
    (split; [reflexivity |]); (split; [reflexivity |]); (split; [reflexivity |]);
    intros l pts Hl Hp; simpl in Hl;
    repeat (destruct Hl as [<- | Hl]; [try discriminate Hp; reflexivity |]);
    destruct Hl.
Qed.

Lemma background_and_silhouette_witness :
  In 48 sizes ∧
  ∃ img, create_hawk_icon_pil 48 = Ok img ∧
         shape <$> layers img !! 0%nat = Some (RoundedRect (0, 0, 47, 47) 9).
Proof.
  split; [simpl; lia |].
  destruct (background_and_silhouette 48 ltac:(simpl; lia))
    as (img & Himg & Hbg & _).
  exists img. split; [exact Himg |].
  rewrite Hbg. vm_compute in Himg. injection Himg as <-. reflexivity.
Defined.

(** ** Boxes *)

(** C10. At every size of the set each shape drawn is well-formed and inside
    the canvas: every box has [x0 ≤ x1] and [y0 ≤ y1], every coordinate of
    every box and of every polygon vertex lies in [0, size-1]; the shaft
    starts no further right than it ends and both tooth boxes have positive
    extent. *)
Theorem shapes_well_formed_in_bounds (size : Z) :
  In size sizes →
  ∃ img, create_hawk_icon_pil size = Ok img ∧
         shape <$> layers img = z_order size ∧
         Forall (shape_ok size) (z_order size) ∧
         Hawk.shaft_start size ≤ Hawk.shaft_end size ∧
         non_degenerate (left_tooth_box size) ∧
         non_degenerate (right_tooth_box size).
Proof.
  intros Hs. destruct (sizes_cases size Hs) as [-> | [-> | ->]];
    (eexists; split; [vm_compute; reflexivity |]);
    (split; [reflexivity |]);
    vm_compute; repeat constructor; congruence.
Qed.

Lemma shapes_well_formed_in_bounds_witness :
  In 16 sizes ∧ Hawk.shaft_start 16 ≤ Hawk.shaft_end 16.
Proof.
  split; [simpl; lia |].
  destruct (shapes_well_formed_in_bounds 16 ltac:(simpl; lia))
    as (_ & _ & _ & _ & H & _).
  exact H.
Defined.

(** ** Drawing order and pixels *)

Lemma bind_Ok {A B} (m : result A) (f : A → result B) (b : B) :
  m ≫= f = Ok b → ∃ a, m = Ok a ∧ f a = Ok b.
Proof. destruct m as [a | e]; simpl; [eauto | discriminate]. Qed.

Lemma Image_new_Ok (m : string) (w h : Z) (c : Color) (img : Image) :
  PIL.Image_new m (w, h) c = Ok img →
  img = {| mode := m; width := w; height := h; background := c; layers := [] |}
  ∧ 0 ≤ w < 2 ^ 31 ∧ 0 ≤ h < 2 ^ 31.
Proof.
  unfold PIL.Image_new.
  destruct ((w <? 0) || (h <? 0)) eqn:E1; [discriminate |].
  destruct ((2 ^ 63 <=? w) || (2 ^ 63 <=? h)) eqn:E3; [discriminate |].
  destruct ((2 ^ 31 <=? w) || (2 ^ 31 <=? h)) eqn:E2; [discriminate |].
  destruct (2 ^ 29 - 2 <? w) eqn:E4; [discriminate |].
  apply orb_false_iff in E1 as [Hw Hh]. apply orb_false_iff in E2 as [Hw' Hh'].
  intros [= <-]. split; [reflexivity | lia].
Qed.

Lemma rounded_rectangle_Ok img xy r fill img' :
  PIL.rounded_rectangle img xy r fill = Ok img' →
  ∃ c, PIL.getink fill = Ok c ∧ img' = PIL.add_layer img (RoundedRect xy r) c.
Proof.
  unfold PIL.rounded_rectangle. intros H.
  apply bind_Ok in H as (_ & _ & H). apply bind_Ok in H as (c & Hc & [= <-]).
  eauto.
Qed.

Lemma polygon_Ok img xy fill img' :
  PIL.polygon img xy fill = Ok img' →
  ∃ c, PIL.getink fill = Ok c ∧ img' = PIL.add_layer img (Polygon xy) c.
Proof.
  unfold PIL.polygon. intros H. apply bind_Ok in H as (c & Hc & [= <-]). eauto.
Qed.

Lemma rectangle_Ok img xy fill img' :
  PIL.rectangle img xy fill = Ok img' →
  ∃ c, PIL.getink fill = Ok c ∧ img' = PIL.add_layer img (RectFill xy) c.
Proof.
  unfold PIL.rectangle. intros H.
  apply bind_Ok in H as (_ & _ & H). apply bind_Ok in H as (c & Hc & [= <-]).
  eauto.
Qed.

Lemma ellipse_fill_Ok img xy fill w img' :
  PIL.ellipse img xy (Some fill) None w = Ok img' →
  ∃ c, PIL.getink fill = Ok c ∧ img' = PIL.add_layer img (EllipseFill xy) c.
Proof.
  unfold PIL.ellipse. intros H.
  apply bind_Ok in H as (_ & _ & H). apply bind_Ok in H as (f & Hf & H).
  simpl in Hf. apply bind_Ok in Hf as (c & Hc & [= <-]).
  simpl in H. injection H as <-. eauto.
Qed.

Lemma ellipse_outline_Ok img xy outline w img' :
  w ≠ 0 →
  PIL.ellipse img xy None (Some outline) w = Ok img' →
  ∃ c, PIL.getink outline = Ok c ∧ img' = PIL.add_layer img (EllipseOutline xy w) c.
Proof.
  unfold PIL.ellipse. intros Hw H.
  apply bind_Ok in H as (_ & _ & H). simpl in H.
  apply bind_Ok in H as (o & Ho & H).
  apply bind_Ok in Ho as (c & Hc & [= <-]).
  unfold PIL.fill_then_outline in H.
  rewrite bool_decide_eq_false_2 in H by discriminate.
  apply Z.eqb_neq in Hw. rewrite Hw in H. simpl in H. injection H as <-. eauto.
Qed.

(** A pixel holds the ink of the front-most layer covering it, or the
    initial colour when no layer covers it. *)
Lemma pixel_topmost covers img x y :
  pixel covers img x y =
  match topmost covers (layers img) x y with
  | Some l => ink l
  | None => background img
  end.
Proof.
  unfold pixel, topmost. generalize (background img).
  induction (layers img) as [| l ls IH] using rev_ind; intros c; [reflexivity |].
  rewrite fold_left_app, rev_unit. simpl. unfold paint at 1.
  destruct (covers (shape l) x y); [reflexivity | apply IH].
Qed.

(** C8. Whatever the size, the image the function returns was painted in
    this order: background, head, body, eye, key ring, key shaft, left
    tooth, right tooth; so each pixel holds the ink of the last shape of that
    sequence covering it, and the initial transparent colour when none
    does. *)
Theorem drawing_order (size : Z) (img : Image) :
  create_hawk_icon_pil size = Ok img →
  shape <$> layers img = z_order size ∧
  ∀ covers x y,
    pixel covers img x y =
    match topmost covers (layers img) x y with
    | Some l => ink l
    | None => (0, 0, 0, 0)
    end.
Proof.
  unfold create_hawk_icon_pil, Hawk.create_hawk_icon_pil. intros H.
  apply bind_Ok in H as (i0 & H0 & H). apply Image_new_Ok in H0 as [-> _].
  apply bind_Ok in H as (i1 & H1 & H). apply rounded_rectangle_Ok in H1 as (c1 & _ & ->).
  apply bind_Ok in H as (i2 & H2 & H). apply polygon_Ok in H2 as (c2 & _ & ->).
  apply bind_Ok in H as (i3 & H3 & H). apply polygon_Ok in H3 as (c3 & _ & ->).
  apply bind_Ok in H as (i4 & H4 & H). apply ellipse_fill_Ok in H4 as (c4 & _ & ->).
  apply bind_Ok in H as (i5 & H5 & H).
  apply ellipse_outline_Ok in H5 as (c5 & _ & ->);
    [| pose proof (max_lower 2 (Py.int (3 * Hawk.s size)%float));
       unfold Hawk.key_w; lia].
  apply bind_Ok in H as (i6 & H6 & H). apply rectangle_Ok in H6 as (c6 & _ & ->).
  apply bind_Ok in H as (i7 & H7 & H). apply rectangle_Ok in H7 as (c7 & _ & ->).
  apply bind_Ok in H as (i8 & H8 & H). apply rectangle_Ok in H8 as (c8 & _ & ->).
  injection H as <-.
  split; [reflexivity |].
  intros covers x y. apply pixel_topmost.
Qed.

Lemma drawing_order_witness :
  ∃ img, create_hawk_icon_pil 16 = Ok img ∧ shape <$> layers img = z_order 16.
Proof.
  eexists. split; [vm_compute; reflexivity |].
  eapply (drawing_order 16). vm_compute. reflexivity.
Defined.

(** A pixel covered by some layer of an image whose inks are all visible is
    itself visible. *)
Lemma covered_pixel_visible covers img x y l0 :
  In l0 (layers img) → covers (shape l0) x y = true →
  Forall (λ l, alpha (ink l) ≠ 0) (layers img) →
  alpha (pixel covers img x y) ≠ 0.
Proof.
  intros Hin Hcov Hall. rewrite pixel_topmost. unfold topmost.
  destruct (find _ _) as [l |] eqn:Hf.
  - apply find_some in Hf as [Hl _]. apply in_rev in Hl.
    rewrite Forall_forall in Hall. apply Hall. apply list_elem_of_In, Hl.
  - apply find_none with (x := l0) in Hf; [congruence |].
    apply in_rev in Hin. exact Hin.
Qed.

(** The idealised rasteriser fills the band. *)
Lemma Ideal_fills_band : fills_band Ideal.covers.
Proof.
  intros x0 y0 x1 y1 r x y Hr Hroom Hx Hy. simpl.
  destruct (Z.ltb_spec x (x0 + r)); [lia |].
  destruct (Z.ltb_spec (x1 - r) x); [lia |].
  apply andb_true_intro; split.
  - repeat (apply andb_true_intro; split); lia.
  - apply Z.leb_le.
    destruct (Z.ltb_spec y (y0 + r)); [nia |].
    destruct (Z.ltb_spec (y1 - r) y); nia.
Qed.

(** C9. With a rasteriser that fills the band of a rounded rectangle, at
    every size of the set the drawn image has a pixel of non-zero alpha: the
    centre pixel, which the opaque background covers. *)
Theorem icon_not_fully_transparent covers (size : Z) :
  fills_band covers →
  In size sizes →
  ∃ img, create_hawk_icon_pil size = Ok img ∧
         ∃ x y, in_canvas img x y = true ∧ alpha (pixel covers img x y) ≠ 0.
Proof.
  intros Hband Hs.
  destruct (sizes_cases size Hs) as [-> | [-> | ->]];
    (eexists; split; [vm_compute; reflexivity |]).
  - exists 8, 8. split; [reflexivity |].
    eapply covered_pixel_visible;
      [left; reflexivity | apply Hband; lia
      | repeat constructor; vm_compute; discriminate].
  - exists 24, 24. split; [reflexivity |].
    eapply covered_pixel_visible;
      [left; reflexivity | apply Hband; lia
      | repeat constructor; vm_compute; discriminate].
  - exists 64, 64. split; [reflexivity |].
    eapply covered_pixel_visible;
      [left; reflexivity | apply Hband; lia
      | repeat constructor; vm_compute; discriminate].
Qed.

Lemma icon_not_fully_transparent_witness :
  fills_band Ideal.covers ∧ In 16 sizes ∧
  ∃ img, create_hawk_icon_pil 16 = Ok img ∧
         ∃ x y, in_canvas img x y = true ∧ alpha (pixel Ideal.covers img x y) ≠ 0.
Proof.
  split; [exact Ideal_fills_band |].
  split; [simpl; lia |].
  apply (icon_not_fully_transparent Ideal.covers 16 Ideal_fills_band).
  simpl; lia.
Defined.

(** ** Paths *)

Lemma join_inj (d a b : string) :
  os_path.startswith_sep a = false → os_path.startswith_sep b = false →
  os_path.join d a = os_path.join d b → a = b.
Proof.
  unfold os_path.join. intros -> ->.
  destruct (_ || _); intros H.
  - by apply (inj (String.app d)) in H.
  - apply (inj (String.app d)) in H. by apply (inj (String.app "/")) in H.
Qed.

Lemma output_path_ne_svg env (size : Z) :
  In size sizes → output_path env size ≠ svg_path env.
Proof.
  intros Hs H. apply join_inj in H.
  - destruct (sizes_cases size Hs) as [-> | [-> | ->]]; discriminate H.
  - destruct (sizes_cases size Hs) as [-> | [-> | ->]]; reflexivity.
  - reflexivity.
Qed.

Lemma output_path_inj env (a b : Z) :
  In a sizes → In b sizes → output_path env a = output_path env b → a = b.
Proof.
  intros Ha Hb H. apply join_inj in H.
  - destruct (sizes_cases a Ha) as [-> | [-> | ->]];
      destruct (sizes_cases b Hb) as [-> | [-> | ->]];
      try reflexivity; discriminate H.
  - destruct (sizes_cases a Ha) as [-> | [-> | ->]]; reflexivity.
  - destruct (sizes_cases b Hb) as [-> | [-> | ->]]; reflexivity.
Qed.

Lemma icons_exist :
  ∃ i16 i48 i128,
    create_hawk_icon_pil 16 = Ok i16 ∧
    create_hawk_icon_pil 48 = Ok i48 ∧
    create_hawk_icon_pil 128 = Ok i128.
Proof. do 3 eexists. repeat split; vm_compute; reflexivity. Qed.

(** What [create_icons_with_pil] does, by how far the writes get. *)
Lemma create_icons_with_pil_spec env (w : World) :
  ∃ i16 i48 i128,
    create_hawk_icon_pil 16 = Ok i16 ∧
    create_hawk_icon_pil 48 = Ok i48 ∧
    create_hawk_icon_pil 128 = Ok i128 ∧
    ∃ e1 e2 e3 w1 w2 w3,
    create_icons_with_pil env w =
      if writable env (output_path env 16) then
        if writable env (output_path env 48) then
          if writable env (output_path env 128) then
            (Ok true,
             {| fs := <[output_path env 128 := PngOfImage i128]>
                        (<[output_path env 48 := PngOfImage i48]>
                           (<[output_path env 16 := PngOfImage i16]> (fs w)));
                stdout := stdout w ++ procedural_lines |})
          else (Raise e3, w3)
        else (Raise e2, w2)
      else (Raise e1, w1).
Proof.
  destruct icons_exist as (i16 & i48 & i128 & E16 & E48 & E128).
  exists i16, i48, i128. repeat (split; [assumption |]).
  do 6 eexists.
  unfold create_icons_with_pil, for_each, mbind, IO_bind, mret, IO_ret, lift,
    Image_save, write_file, print.
  rewrite E16, E48, E128.
  destruct (writable env (output_path env 16)); [| reflexivity].
  destruct (writable env (output_path env 48)); [| reflexivity].
  destruct (writable env (output_path env 128)); [| reflexivity].
  cbn [fs stdout]. rewrite <- !app_assoc. reflexivity.
Qed.

Lemma create_icons_from_svg_absent env (w : World) :
  fs w !! svg_path env = None →
  create_icons_from_svg env w =
    (Ok false,
     {| fs := fs w;
        stdout := stdout w ++ ["SVG file not found: " +:+ svg_path env] |}).
Proof.
  intros Habs.
  unfold create_icons_from_svg, mbind, IO_bind, os_path.exists_.
  rewrite Habs. rewrite bool_decide_eq_false_2 by (intros [? ?]; discriminate).
  reflexivity.
Qed.

Lemma create_icons_from_svg_present env (w : World) (src : Blob) :
  fs w !! svg_path env = Some src →
  renders env src = true →
  outputs_writable env →
  create_icons_from_svg env w =
    (Ok true,
     {| fs := <[output_path env 128 := PngOfSvg src 128 128]>
                (<[output_path env 48 := PngOfSvg src 48 48]>
                   (<[output_path env 16 := PngOfSvg src 16 16]> (fs w)));
        stdout := stdout w ++ vector_lines |}).
Proof.
  intros Hsrc Hr Hw.
  assert (H16 : In 16 sizes) by (simpl; lia).
  assert (H48 : In 48 sizes) by (simpl; lia).
  assert (H128 : In 128 sizes) by (simpl; lia).
  unfold create_icons_from_svg, for_each, mbind, IO_bind, mret, IO_ret,
    os_path.exists_, cairosvg_svg2png, write_file, print.
  rewrite bool_decide_eq_true_2 by (rewrite Hsrc; eauto).
  cbn [negb fs stdout].
  rewrite Hsrc, Hr, (Hw 16 H16). cbn [fs stdout].
  rewrite lookup_insert_ne by (apply output_path_ne_svg; exact H16).
  rewrite Hsrc, Hr, (Hw 48 H48). cbn [fs stdout].
  rewrite !lookup_insert_ne by (apply output_path_ne_svg; assumption).
  rewrite Hsrc, Hr, (Hw 128 H128). cbn [fs stdout].
  rewrite <- !app_assoc. reflexivity.
Qed.

(** With the source present the vector path never answers [False]. *)
Lemma create_icons_from_svg_true env (w w' : World) (src : Blob) (b : bool) :
  fs w !! svg_path env = Some src →
  create_icons_from_svg env w = (Ok b, w') → b = true.
Proof.
  intros Hsrc.
  unfold create_icons_from_svg, mbind, IO_bind, mret, IO_ret, os_path.exists_.
  rewrite bool_decide_eq_true_2 by (rewrite Hsrc; eauto).
  cbn [negb].
  destruct (for_each _ _ _) as [[[] | e] w1]; intros [= <- _]; reflexivity.
Qed.

(** ** Dispatch *)









(** ** The procedural path and the files it leaves *)

Lemma create_icons_with_pil_inv env (w w' : World) (b : bool) :
  create_icons_with_pil env w = (Ok b, w') →
  outputs_writable env ∧ b = true ∧
  procedural_files env (fs w) (fs w') ∧
  stdout w' = stdout w ++ procedural_lines.
Proof.
  destruct (create_icons_with_pil_spec env w)
    as (i16 & i48 & i128 & E16 & E48 & E128 & e1 & e2 & e3 & w1 & w2 & w3 & ->).
  destruct (writable env (output_path env 16)) eqn:H16; [| discriminate].
  destruct (writable env (output_path env 48)) eqn:H48; [| discriminate].
  destruct (writable env (output_path env 128)) eqn:H128; [| discriminate].
  intros [= <- <-]. split.
  - intros size Hs. destruct (sizes_cases size Hs) as [-> | [-> | ->]]; assumption.
  - split; [reflexivity |]. split; [| reflexivity].
    exists i16, i48, i128. auto.
Qed.

Lemma procedural_files_lookup env (m m' : gmap string Blob) (size : Z) :
  procedural_files env m m' → In size sizes →
  ∃ img, create_hawk_icon_pil size = Ok img ∧
         m' !! output_path env size = Some (PngOfImage img).
Proof.
  intros (i16 & i48 & i128 & E16 & E48 & E128 & ->) Hs.
  assert (H16 : In 16 sizes) by (simpl; lia).
  assert (H48 : In 48 sizes) by (simpl; lia).
  assert (H128 : In 128 sizes) by (simpl; lia).
  assert (N1 : output_path env 48 ≠ output_path env 16)
    by (intros H; apply output_path_inj in H; [lia | assumption..]).
  assert (N2 : output_path env 128 ≠ output_path env 16)
    by (intros H; apply output_path_inj in H; [lia | assumption..]).
  assert (N3 : output_path env 128 ≠ output_path env 48)
    by (intros H; apply output_path_inj in H; [lia | assumption..]).
  destruct (sizes_cases size Hs) as [-> | [-> | ->]].
  - exists i16. split; [assumption |].
    rewrite !lookup_insert_ne by assumption. apply lookup_insert_eq.
  - exists i48. split; [assumption |].
    rewrite lookup_insert_ne by assumption. apply lookup_insert_eq.
  - exists i128. split; [assumption |]. apply lookup_insert_eq.
Qed.

(** After the import, a run that takes the procedural path and ends normally
    leaves the three
    procedural icons. *)
Lemma after_import_procedural env (importable : bool) (w w' : World) :
  importable = false ∨ fs w !! svg_path env = None →
  after_import env importable w = (Ok tt, w') →
  procedural_files env (fs w) (fs w').
Proof.
  intros Hpath Hrun.
  unfold after_import, main, mbind, IO_bind, mret, IO_ret, print in Hrun.
  destruct importable.
  - destruct Hpath as [Hpath | Habs]; [discriminate |].
    rewrite create_icons_from_svg_absent in Hrun by exact Habs.
    cbn [negb fs stdout] in Hrun.
    destruct (create_icons_with_pil env _) as [[b | e] w1] eqn:Hpil;
      [| discriminate].
    apply create_icons_with_pil_inv in Hpil as (_ & _ & Hfiles & _).
    cbn [fs stdout] in *. injection Hrun as <-. exact Hfiles.
  - cbn [fs stdout] in Hrun.
    destruct (create_icons_with_pil env _) as [[b | e] w1] eqn:Hpil;
      [| discriminate].
    apply create_icons_with_pil_inv in Hpil as (_ & _ & Hfiles & _).
    cbn [fs stdout] in *. injection Hrun as <-. exact Hfiles.
Qed.

(** C2. At every size of the set the canvas comes from
    [Image.new('RGBA', (size, size), (0, 0, 0, 0))]: mode RGBA, size × size,
    every pixel transparent whatever the rasteriser; the image returned has
    the same mode and dimensions; and where the icon files may be written,
    the procedural path ends normally with that image stored in
    [icon{size}.png], its width and height both equal to [size]. *)
Theorem canvas_and_written_image (size : Z) :
  In size sizes →
  ∃ canvas img,
    PIL.Image_new "RGBA" (size, size) (0, 0, 0, 0) = Ok canvas ∧
    mode canvas = "RGBA" ∧ width canvas = size ∧ height canvas = size ∧
    (∀ covers x y, pixel covers canvas x y = (0, 0, 0, 0)) ∧
    create_hawk_icon_pil size = Ok img ∧
    mode img = "RGBA" ∧ background img = background canvas ∧
    width img = size ∧ height img = size ∧
    ∀ env w, outputs_writable env →
      ∃ w', create_icons_with_pil env w = (Ok true, w') ∧
            fs w' !! output_path env size = Some (PngOfImage img).
Proof.
  intros Hs.
  assert (Hfile : ∀ img, create_hawk_icon_pil size = Ok img →
    ∀ env w, outputs_writable env →
      ∃ w', create_icons_with_pil env w = (Ok true, w') ∧
            fs w' !! output_path env size = Some (PngOfImage img)).
  { intros img Himg env w Hw.
    destruct (create_icons_with_pil env w) as [[b | e] w'] eqn:Hpil.
    - apply create_icons_with_pil_inv in Hpil as (_ & -> & Hfiles & _).
      exists w'. split; [reflexivity |].
      destruct (procedural_files_lookup env _ _ size Hfiles Hs) as (img' & E & ->).
      congruence.
    - exfalso.
      destruct (create_icons_with_pil_spec env w)
        as (? & ? & ? & _ & _ & _ & ? & ? & ? & ? & ? & ? & Hspec).
      rewrite Hpil in Hspec.
      rewrite !Hw in Hspec by (simpl; lia). discriminate Hspec. }
  destruct (sizes_cases size Hs) as [-> | [-> | ->]];
    (do 2 eexists; split; [reflexivity |]);
    do 3 (split; [reflexivity |]);
    (split; [intros; reflexivity |]);
    (split; [vm_compute; reflexivity |]);
    do 4 (split; [reflexivity |]);
    apply Hfile; vm_compute; reflexivity.
Qed.

Lemma canvas_and_written_image_witness :
  In 128 sizes ∧
  ∃ img w', create_hawk_icon_pil 128 = Ok img ∧
            create_icons_with_pil env0 w0 = (Ok true, w') ∧
            fs w' !! output_path env0 128 = Some (PngOfImage img) ∧
            width img = 128 ∧ height img = 128.
Proof.
  split; [simpl; lia |].
  destruct (canvas_and_written_image 128 ltac:(simpl; lia))
    as (canvas & img & _ & _ & _ & _ & _ & Himg & _ & _ & Hwd & Hht & Hfile).
  destruct (Hfile env0 w0 ltac:(intros size _; reflexivity)) as (w' & Hrun & Hlook).
  exists img, w'. repeat split; assumption.
Defined.

(** ** The missing vector source *)

(** C7. When [icon.svg] is absent, [create_icons_from_svg] returns [False]
    normally, leaving every file as it was and printing one line; [main]
    with the capability present then announces the fallback and continues
    with [create_icons_with_pil] and the final message; where the icon files
    may be written, that run ends normally with the procedural icons. *)
Theorem missing_svg_not_fatal env (w : World) :
  fs w !! svg_path env = None →
  (∃ w', create_icons_from_svg env w = (Ok false, w') ∧ fs w' = fs w ∧
         stdout w' = stdout w ++ ["SVG file not found: " +:+ svg_path env]) ∧
  main env true w =
    (create_icons_with_pil env ≫= λ _,
     print "Done! Icons created successfully.")
      {| fs := fs w;
         stdout := stdout w ++
           ["Creating BlueHawk API Key Finder icons...";
            "SVG file not found: " +:+ svg_path env;
            "Falling back to PIL..."] |} ∧
  (outputs_writable env →
   ∃ w', main env true w = (Ok tt, w') ∧ procedural_files env (fs w) (fs w')).
Proof.
  intros Habs.
  assert (Hmain : main env true w =
    (create_icons_with_pil env ≫= λ _,
     print "Done! Icons created successfully.")
      {| fs := fs w;
         stdout := stdout w ++
           ["Creating BlueHawk API Key Finder icons...";
            "SVG file not found: " +:+ svg_path env;
            "Falling back to PIL..."] |}).
  { unfold main, mbind, IO_bind, mret, IO_ret, print.
    rewrite create_icons_from_svg_absent by exact Habs.
    cbn [negb fs stdout]. rewrite <- !app_assoc. cbn [app].
    destruct (create_icons_with_pil env _) as [[b | e] w1]; reflexivity. }
  split; [| split; [exact Hmain |]].
  - eexists. split; [apply create_icons_from_svg_absent; exact Habs |].
    split; reflexivity.
  - intros Hw. rewrite Hmain.
    destruct (create_icons_with_pil_spec env
      {| fs := fs w;
         stdout := stdout w ++
           ["Creating BlueHawk API Key Finder icons...";
            "SVG file not found: " +:+ svg_path env;
            "Falling back to PIL..."] |})
      as (i16 & i48 & i128 & E16 & E48 & E128 & e1 & e2 & e3 & w1 & w2 & w3 & Hpil).
    rewrite !Hw in Hpil by (simpl; lia).
    unfold mbind, IO_bind. rewrite Hpil. unfold print. cbn [fs stdout].
    eexists. split; [reflexivity |].
    exists i16, i48, i128. auto.
Qed.

Lemma missing_svg_not_fatal_witness :
  fs w0 !! svg_path env0 = None ∧
  ∃ w', create_icons_from_svg env0 w0 = (Ok false, w') ∧ fs w' = fs w0.
Proof.
  split; [reflexivity |].
  destruct (missing_svg_not_fatal env0 w0 eq_refl) as ((w' & Hret & Hfs & _) & _).
  exists w'. split; assumption.
Defined.

(** ** Further properties: the geometry at other sizes *)

Lemma all_from_spec (p : Z → bool) (lo : Z) (n : nat) :
  all_from p lo n = true → ∀ z, lo ≤ z < lo + Z.of_nat n → p z = true.
Proof.
  revert lo. induction n as [| n IH]; intros lo H z Hz; [lia |].
  simpl in H. apply andb_prop in H as [Hlo Hrest].
  destruct (Z.eq_dec z lo) as [-> | Hne]; [exact Hlo |].
  apply (IH (lo + 1)); [exact Hrest | lia].
Qed.

(** The check of every size from 0 to [max_checked], by evaluation. *)
Lemma sizes_checked : all_from size_check 0 1025 = true.
Proof. vm_cast_no_check (eq_refl true). Qed.

Lemma size_check_in_range (size : Z) :
  0 ≤ size ≤ max_checked → size_check size = true.
Proof.
  intros H. apply (all_from_spec size_check 0 1025 sizes_checked).
  unfold max_checked in H. lia.
Qed.

Lemma point_okb_spec (size : Z) (p : Z * Z) :
  point_okb size p = true ↔ point_in_bounds size p.
Proof.
  unfold point_okb, point_in_bounds.
  rewrite !andb_true_iff, !Z.leb_le. lia.
Qed.

Lemma box_okb_spec (size : Z) (xy : Box) :
  box_okb size xy = true ↔ well_formed xy ∧ box_in_bounds size xy.
Proof.
  destruct xy as [[[x0 y0] x1] y1]. unfold box_okb, well_formed, box_in_bounds.
  rewrite !andb_true_iff, !Z.leb_le, !point_okb_spec. tauto.
Qed.

Lemma points_okb_spec (size : Z) (pts : list (Z * Z)) :
  forallb (point_okb size) pts = true ↔ Forall (point_in_bounds size) pts.
Proof.
  induction pts as [| p pts IH]; simpl.
  - split; [constructor | reflexivity].
  - rewrite andb_true_iff, point_okb_spec, IH. split.
    + intros [? ?]. constructor; assumption.
    + intros H. inversion H; subst. split; assumption.
Qed.

Lemma shape_okb_spec (size : Z) (sh : Shape) :
  shape_okb size sh = true ↔ shape_ok size sh.
Proof.
  destruct sh; simpl; try apply box_okb_spec. apply points_okb_spec.
Qed.

Lemma shapes_okb_spec (size : Z) (shs : list Shape) :
  forallb (shape_okb size) shs = true ↔ Forall (shape_ok size) shs.
Proof.
  induction shs as [| sh shs IH]; simpl.
  - split; [constructor | reflexivity].
  - rewrite andb_true_iff, shape_okb_spec, IH. split.
    + intros [? ?]. constructor; assumption.
    + intros H. inversion H; subst. split; assumption.
Qed.

Lemma integer_geometryb_spec (size : Z) :
  integer_geometryb size = true → integer_geometry size.
Proof.
  unfold integer_geometryb, integer_geometry.
  rewrite !andb_true_iff, !Z.eqb_eq, !bool_decide_eq_true. tauto.
Qed.

Lemma eqb_true_l (a b : bool) : Bool.eqb a b = true → (a = true ↔ b = true).
Proof. destruct a, b; simpl; intuition discriminate. Qed.

Lemma returns_spec (size : Z) :
  returns size = true ↔ ∃ img, create_hawk_icon_pil size = Ok img.
Proof.
  unfold returns. destruct (create_hawk_icon_pil size) as [img | e].
  - split; [eauto | reflexivity].
  - split; [discriminate | intros [img [=]]].
Qed.

(** X1. From size 0 to 1024 the binary64 computations of the function agree with
    exact integer arithmetic: the radius is 19 * size / 100 truncated, every
    coordinate is k * size / 128 truncated, every clamped length is the
    larger of its minimum and k * size / 128 truncated. *)
Theorem geometry_is_integer_arithmetic (size : Z) :
  0 ≤ size ≤ max_checked → integer_geometry size.
Proof.
  intros H. apply integer_geometryb_spec.
  pose proof (size_check_in_range size H) as Hc. unfold size_check in Hc.
  rewrite !andb_true_iff in Hc. tauto.
Qed.

Lemma geometry_is_integer_arithmetic_witness :
  0 ≤ 100 ≤ max_checked ∧ Hawk.radius 100 = 19 ∧ Hawk.key_x 100 = 19.
Proof.
  assert (H : 0 ≤ 100 ≤ max_checked) by (unfold max_checked; lia).
  split; [exact H |].
  destruct (geometry_is_integer_arithmetic 100 H)
    as (Hr & _ & _ & _ & _ & _ & _ & Hk & _).
  rewrite Hr, Hk. split; reflexivity.
Defined.

(** X3. From size 0 to 1024 the function returns an image exactly when the size
    is at least 8: below, a drawing call is refused. *)
Theorem returns_from_size_8 (size : Z) :
  0 ≤ size ≤ max_checked →
  (∃ img, create_hawk_icon_pil size = Ok img) ↔ 8 ≤ size.
Proof.
  intros H. rewrite <- returns_spec, <- Z.leb_le. apply eqb_true_l.
  pose proof (size_check_in_range size H) as Hc. unfold size_check in Hc.
  rewrite !andb_true_iff in Hc. tauto.
Qed.

Lemma returns_from_size_8_witness :
  0 ≤ 8 ≤ max_checked ∧ ∃ img, create_hawk_icon_pil 8 = Ok img.
Proof.
  assert (H : 0 ≤ 8 ≤ max_checked) by (unfold max_checked; lia).
  split; [exact H |].
  apply (returns_from_size_8 8 H). lia.
Defined.

(** X4. From size 0 to 1024 every shape handed to a drawing call is well-formed
    and inside the canvas exactly when the size is at least 16: the smallest
    icon of the script is the smallest that is not clipped. *)
Theorem in_bounds_from_size_16 (size : Z) :
  0 ≤ size ≤ max_checked →
  Forall (shape_ok size) (z_order size) ↔ 16 ≤ size.
Proof.
  intros H. rewrite <- shapes_okb_spec, <- Z.leb_le. apply eqb_true_l.
  pose proof (size_check_in_range size H) as Hc. unfold size_check in Hc.
  rewrite !andb_true_iff in Hc. tauto.
Qed.

Lemma in_bounds_from_size_16_witness :
  0 ≤ 15 ≤ max_checked ∧ ¬ Forall (shape_ok 15) (z_order 15) ∧
  ring_box 15 = (-1, 8, 5, 14).
Proof.
  assert (H : 0 ≤ 15 ≤ max_checked) by (unfold max_checked; lia).
  split; [exact H |]. split; [| reflexivity].
  intros Hall. apply (in_bounds_from_size_16 15 H) in Hall. lia.
Defined.

(** ** Further properties: the function at every size *)

Lemma check_box_spec (xy : Box) : PIL.check_box xy = Ok tt ↔ well_formed xy.
Proof.
  destruct xy as [[[x0 y0] x1] y1]. unfold PIL.check_box, well_formed.
  destruct (Z.ltb_spec x1 x0); [split; [discriminate | lia] |].
  destruct (Z.ltb_spec y1 y0); [split; [discriminate | lia] |].
  split; [lia | reflexivity].
Qed.

Lemma check_box_Ok (xy : Box) (u : unit) : PIL.check_box xy = Ok u → well_formed xy.
Proof. destruct u. apply check_box_spec. Qed.

(** What an image returned by the function is made of, at any size. *)
Lemma create_hawk_icon_pil_inv (size : Z) (img : Image) :
  create_hawk_icon_pil size = Ok img →
  img = {| mode := "RGBA"; width := size; height := size;
           background := (0, 0, 0, 0);
           layers := zip_with (λ sh c, {| shape := sh; ink := c |})
                              (z_order size) layer_inks |}
  ∧ 1 ≤ size < 2 ^ 31 ∧ Hawk.shaft_start size ≤ Hawk.shaft_end size.
Proof.
  unfold create_hawk_icon_pil, Hawk.create_hawk_icon_pil. intros H.
  apply bind_Ok in H as (i0 & H0 & H). apply Image_new_Ok in H0 as (-> & Hsz & _).
  apply bind_Ok in H as (i1 & H1 & H). unfold PIL.rounded_rectangle in H1.
  apply bind_Ok in H1 as (u1 & Hb1 & H1). apply check_box_Ok in Hb1.
  apply bind_Ok in H1 as (c1 & Hc1 & [= <-]). injection Hc1 as <-.
  apply bind_Ok in H as (i2 & H2 & H). apply polygon_Ok in H2 as (c2 & [= <-] & ->).
  apply bind_Ok in H as (i3 & H3 & H). apply polygon_Ok in H3 as (c3 & [= <-] & ->).
  apply bind_Ok in H as (i4 & H4 & H). apply ellipse_fill_Ok in H4 as (c4 & [= <-] & ->).
  apply bind_Ok in H as (i5 & H5 & H).
  apply ellipse_outline_Ok in H5 as (c5 & [= <-] & ->);
    [| pose proof (max_lower 2 (Py.int (3 * Hawk.s size)%float));
       unfold Hawk.key_w; lia].
  apply bind_Ok in H as (i6 & H6 & H). unfold PIL.rectangle in H6.
  apply bind_Ok in H6 as (u6 & Hb6 & H6). apply check_box_Ok in Hb6.
  apply bind_Ok in H6 as (c6 & [= <-] & [= <-]).
  apply bind_Ok in H as (i7 & H7 & H). apply rectangle_Ok in H7 as (c7 & [= <-] & ->).
  apply bind_Ok in H as (i8 & H8 & H). apply rectangle_Ok in H8 as (c8 & [= <-] & ->).
  injection H as <-.
  split; [reflexivity |].
  unfold well_formed in Hb1, Hb6. lia.
Qed.

(** X7. At any size at which the function returns, and whatever the rasteriser,
    the image is RGBA, size × size, and each of its pixels is either the
    transparent initial colour or one of the four opaque inks: no pixel is
    partly transparent. *)
Theorem pixels_in_palette covers (size : Z) (img : Image) (x y : Z) :
  create_hawk_icon_pil size = Ok img →
  mode img = "RGBA" ∧ width img = size ∧ height img = size ∧
  In (pixel covers img x y) palette ∧
  (alpha (pixel covers img x y) = 0 ∨ alpha (pixel covers img x y) = 255).
Proof.
  intros H. apply create_hawk_icon_pil_inv in H as (-> & _ & _).
  do 3 (split; [reflexivity |]).
  assert (Hin : In (pixel covers
    {| mode := "RGBA"; width := size; height := size; background := (0, 0, 0, 0);
       layers := zip_with (λ sh c, {| shape := sh; ink := c |})
                          (z_order size) layer_inks |} x y) palette).
  { rewrite pixel_topmost. unfold topmost.
    destruct (find _ _) as [l |] eqn:Hf; [| left; reflexivity].
    apply find_some in Hf as [Hl _]. apply in_rev in Hl.
    cbn [layers z_order layer_inks zip_with] in Hl. simpl in Hl.
    unfold palette.
    repeat (destruct Hl as [<- | Hl]; [simpl; tauto |]). destruct Hl. }
  split; [exact Hin |].
  revert Hin. generalize (pixel covers
    {| mode := "RGBA"; width := size; height := size; background := (0, 0, 0, 0);
       layers := zip_with (λ sh c, {| shape := sh; ink := c |})
                          (z_order size) layer_inks |} x y).
  intros p Hin. unfold palette in Hin. simpl in Hin.
  repeat (destruct Hin as [<- | Hin]; [simpl; tauto |]). destruct Hin.
Qed.

Lemma pixels_in_palette_witness :
  ∃ img, create_hawk_icon_pil 48 = Ok img ∧
         In (pixel Ideal.covers img 24 24) palette.
Proof.
  eexists. split; [vm_compute; reflexivity |].
  eapply (pixels_in_palette Ideal.covers 48). vm_compute. reflexivity.
Defined.

(** What the clamps of [max] give at any size. *)
Lemma clamped_boxes (size : Z) :
  non_degenerate (eye_box size) ∧ non_degenerate (ring_box size) ∧
  non_degenerate (left_tooth_box size) ∧ non_degenerate (right_tooth_box size) ∧
  Hawk.key_y size - Hawk.key_w size < Hawk.key_y size + Hawk.key_w size ∧
  Hawk.shaft_end size - Hawk.tooth_w size * 2
    < Hawk.shaft_end size - Hawk.tooth_w size.
Proof.
  pose proof (max_lower 2 (Py.int (4 * Hawk.s size)%float)) as He.
  pose proof (max_lower 3 (Py.int (8 * Hawk.s size)%float)) as Hr.
  pose proof (max_lower 2 (Py.int (3 * Hawk.s size)%float)) as Hw.
  pose proof (max_lower 3 (Py.int (6 * Hawk.s size)%float)) as Hh.
  unfold non_degenerate, eye_box, ring_box, left_tooth_box, right_tooth_box.
  unfold Hawk.eye_r, Hawk.key_r, Hawk.key_w, Hawk.tooth_w, Hawk.tooth_h.
  repeat split; lia.
Qed.

(** X6. At every size whatsoever the eye box, the ring box and both tooth boxes
    have positive extent, the shaft box is in order vertically, the left
    tooth ends strictly left of where the right tooth starts, and the right
    tooth ends where the shaft ends: the clamped minimums keep these shapes
    from collapsing or merging however small the icon. *)
Theorem clamps_keep_shapes_apart (size : Z) :
  non_degenerate (eye_box size) ∧ non_degenerate (ring_box size) ∧
  non_degenerate (left_tooth_box size) ∧ non_degenerate (right_tooth_box size) ∧
  Hawk.key_y size - Hawk.key_w size < Hawk.key_y size + Hawk.key_w size ∧
  Hawk.shaft_end size - Hawk.tooth_w size * 2
    < Hawk.shaft_end size - Hawk.tooth_w size.
Proof. exact (clamped_boxes size). Qed.

(** X5. Up to the largest size checked by evaluation, where allocating the
    canvas is not in question, the function returns an image exactly when the
    size is at least 1 and the shaft's start is no further right than its
    end: the background box and the shaft box are the only arguments a
    drawing call can be refused for; the eye, ring and tooth boxes are in
    order at every size. *)
Theorem returns_iff_shaft_in_order (size : Z) :
  size ≤ max_checked →
  (∃ img, create_hawk_icon_pil size = Ok img) ↔
  1 ≤ size ∧ Hawk.shaft_start size ≤ Hawk.shaft_end size.
Proof.
  intros Hmax. unfold max_checked in Hmax. split.
  - intros [img H]. apply create_hawk_icon_pil_inv in H. tauto.
  - intros [Hsize Hshaft].
    destruct (clamped_boxes size) as (He & Hr & Hl & Hrt & Hy & _).
    unfold create_hawk_icon_pil, Hawk.create_hawk_icon_pil.
    unfold PIL.Image_new.
    assert (E1 : (size <? 0) = false) by (apply Z.ltb_ge; lia).
    assert (E2 : (2 ^ 31 <=? size) = false) by (apply Z.leb_gt; lia).
    assert (E3 : (2 ^ 63 <=? size) = false) by (apply Z.leb_gt; lia).
    assert (E4 : (2 ^ 29 - 2 <? size) = false) by (apply Z.ltb_ge; lia).
    rewrite E1, E3, E2, E4. cbn [orb mbind result_bind].
    unfold PIL.rounded_rectangle, PIL.polygon, PIL.ellipse, PIL.rectangle.
    assert (W0 : PIL.check_box (0, 0, size - 1, size - 1) = Ok tt)
      by (apply check_box_spec; unfold well_formed; lia).
    assert (W1 : PIL.check_box (eye_box size) = Ok tt)
      by (apply check_box_spec; unfold non_degenerate, eye_box in He;
          unfold well_formed, eye_box; lia).
    assert (W2 : PIL.check_box (ring_box size) = Ok tt)
      by (apply check_box_spec; unfold non_degenerate, ring_box in Hr;
          unfold well_formed, ring_box; lia).
    assert (W3 : PIL.check_box (shaft_box size) = Ok tt)
      by (apply check_box_spec; unfold well_formed, shaft_box; lia).
    assert (W4 : PIL.check_box (left_tooth_box size) = Ok tt)
      by (apply check_box_spec; unfold non_degenerate, left_tooth_box in Hl;
          unfold well_formed, left_tooth_box; lia).
    assert (W5 : PIL.check_box (right_tooth_box size) = Ok tt)
      by (apply check_box_spec; unfold non_degenerate, right_tooth_box in Hrt;
          unfold well_formed, right_tooth_box; lia).
    unfold eye_box in W1. unfold ring_box in W2. unfold shaft_box in W3.
    unfold left_tooth_box in W4. unfold right_tooth_box in W5.
    rewrite W0, W1, W2, W3, W4, W5.
    rewrite getink_background, getink_hawk, getink_key.
    cbn [mbind result_bind PIL.getink_opt]. rewrite getink_eye, getink_key.
    cbn [mbind result_bind]. eauto.
Qed.

Lemma returns_iff_shaft_in_order_witness :
  4 ≤ max_checked ∧ Hawk.shaft_start 4 = 3 ∧ Hawk.shaft_end 4 = 2 ∧
  ¬ ∃ img, create_hawk_icon_pil 4 = Ok img.
Proof.
  assert (H : 4 ≤ max_checked) by (unfold max_checked; lia).
  split; [exact H |]. split; [reflexivity |]. split; [reflexivity |].
  intros Hret. apply (returns_iff_shaft_in_order 4 H) in Hret as [_ Hshaft].
  vm_compute in Hshaft. apply Hshaft. reflexivity.
Defined.

(** X2. From size 0 to 1024 every float the function hands to [int] is finite:
    no conversion raises, and the total [Py.int] is Python's [int] at each
    call. *)
Theorem int_never_raises (size : Z) :
  0 ≤ size ≤ max_checked →
  Forall (λ f, Py.int_checked f = Ok (Py.int f)) (int_arguments size).
Proof.
  intros H.
  pose proof (size_check_in_range size H) as Hc. unfold size_check in Hc.
  rewrite !andb_true_iff in Hc. destruct Hc as [_ Hc].
  induction (int_arguments size) as [| f fs IH]; [constructor |].
  simpl in Hc. apply andb_prop in Hc as [Hf Hfs].
  constructor; [| apply IH; exact Hfs].
  unfold converts in Hf. unfold Py.int.
  destruct (Py.int_checked f); [reflexivity | discriminate Hf].
Qed.

Lemma int_never_raises_witness :
  0 ≤ 1000 ≤ max_checked ∧
  Forall (λ f, Py.int_checked f = Ok (Py.int f)) (int_arguments 1000).
Proof.
  assert (H : 0 ≤ 1000 ≤ max_checked) by (unfold max_checked; lia).
  split; [exact H | exact (int_never_raises 1000 H)].
Defined.

(** X8. At any size at which the function returns, the eight layers carry, back
    to front, the opaque inks of [#1e3a5f], [#f59e0b] twice, [#0d1b2a] for
    the eye, and [#22c55e] for the ring, the shaft and both teeth. *)
Theorem inks_back_to_front (size : Z) (img : Image) :
  create_hawk_icon_pil size = Ok img →
  ink <$> layers img = layer_inks ∧
  Forall (λ l, alpha (ink l) = 255) (layers img) ∧
  length (layers img) = 8%nat.
Proof.
  intros H. apply create_hawk_icon_pil_inv in H as (-> & _ & _).
  split; [reflexivity |]. split; [| reflexivity].
  cbn [layers z_order layer_inks zip_with]. repeat constructor.
Qed.

Lemma inks_back_to_front_witness :
  ∃ img, create_hawk_icon_pil 128 = Ok img ∧
         ink <$> layers img !! 3%nat = Some (0x0d, 0x1b, 0x2a, 255).
Proof.
  eexists. split; [vm_compute; reflexivity |].
  pose proof (inks_back_to_front 128 _ eq_refl) as [Hinks _].
  reflexivity.
Defined.

(** ** Further properties: what a run touches *)

Lemma contained_ret {A} env (allowed : string → Prop) (a : A) :
  contained env allowed (mret a).
Proof.
  intros w r w' [= <- <-]. split; [reflexivity |].
  exists []. split; [symmetry; apply app_nil_r | constructor].
Qed.

Lemma contained_bind {A B} env (allowed : string → Prop)
    (m : IO A) (f : A → IO B) :
  contained env allowed m → (∀ a, contained env allowed (f a)) →
  contained env allowed (m ≫= f).
Proof.
  intros Hm Hf w r w' H. unfold mbind, IO_bind in H.
  destruct (m w) as [[a | e] w1] eqn:E.
  - destruct (Hm w _ _ E) as (F1 & l1 & S1 & A1).
    destruct (Hf a w1 _ _ H) as (F2 & l2 & S2 & A2).
    split.
    + intros path Hp. rewrite (F2 path Hp). apply F1, Hp.
    + exists (l1 ++ l2). split.
      * rewrite S2, S1. symmetry. apply app_assoc.
      * apply Forall_app. split; assumption.
  - injection H as <- <-. exact (Hm w _ _ E).
Qed.

Lemma contained_print env (allowed : string → Prop) (line : string) :
  allowed line → contained env allowed (print line).
Proof.
  intros Hl w r w' [= <- <-]. split; [reflexivity |].
  exists [line]. split; [reflexivity | repeat constructor; exact Hl].
Qed.

Lemma contained_lift {A} env (allowed : string → Prop) (x : result A) :
  contained env allowed (lift x).
Proof.
  intros w r w' [= <- <-]. split; [reflexivity |].
  exists []. split; [symmetry; apply app_nil_r | constructor].
Qed.

Lemma contained_exists env (allowed : string → Prop) (path : string) :
  contained env allowed (os_path.exists_ path).
Proof.
  intros w r w' [= <- <-]. split; [reflexivity |].
  exists []. split; [symmetry; apply app_nil_r | constructor].
Qed.

Lemma contained_write_file env (allowed : string → Prop) (path : string) (b : Blob) :
  is_output env path → contained env allowed (write_file env path b).
Proof.
  intros Hout w r w' H. unfold write_file in H.
  destruct (writable env path); injection H as <- <-.
  - split.
    + intros q Hq. cbn [fs]. apply lookup_insert_ne. intros ->. exact (Hq Hout).
    + exists []. split; [symmetry; apply app_nil_r | constructor].
  - split; [reflexivity |].
    exists []. split; [symmetry; apply app_nil_r | constructor].
Qed.

Lemma contained_svg2png env (allowed : string → Prop) (url out : string) (w h : Z) :
  is_output env out → contained env allowed (cairosvg_svg2png env url out w h).
Proof.
  intros Hout w0 r w' H. unfold cairosvg_svg2png in H.
  destruct (fs w0 !! url) as [src |].
  - destruct (renders env src).
    + exact (contained_write_file env allowed out _ Hout w0 r w' H).
    + injection H as <- <-. split; [reflexivity |].
      exists []. split; [symmetry; apply app_nil_r | constructor].
  - injection H as <- <-. split; [reflexivity |].
    exists []. split; [symmetry; apply app_nil_r | constructor].
Qed.

Lemma contained_for_each {A} env (allowed : string → Prop)
    (l : list A) (body : A → IO unit) :
  (∀ x, In x l → contained env allowed (body x)) →
  contained env allowed (for_each l body).
Proof.
  induction l as [| x l IH]; intros Hb; simpl.
  - apply contained_ret.
  - apply contained_bind.
    + apply Hb. left. reflexivity.
    + intros _. apply IH. intros y Hy. apply Hb. right. exact Hy.
Qed.

Lemma contained_weaken {A} env (P Q : string → Prop) (m : IO A) :
  (∀ line, P line → Q line) → contained env P m → contained env Q m.
Proof.
  intros HPQ Hm w r w' H. destruct (Hm w r w' H) as (F & lines & S & Hall).
  split; [exact F |]. exists lines. split; [exact S |].
  eapply Forall_impl; eassumption.
Qed.

(** Neither path prints the closing message or touches a foreign file. *)
Lemma create_icons_with_pil_contained env :
  contained env (λ line, line ≠ done_line) (create_icons_with_pil env).
Proof.
  unfold create_icons_with_pil. apply contained_bind; [| intros; apply contained_ret].
  apply contained_for_each. intros size Hs.
  apply contained_bind; [apply contained_lift |]. intros icon.
  apply contained_bind.
  - apply contained_write_file. exists size. split; [exact Hs | reflexivity].
  - intros _. apply contained_print. discriminate.
Qed.

Lemma create_icons_from_svg_contained env :
  contained env (λ line, line ≠ done_line) (create_icons_from_svg env).
Proof.
  unfold create_icons_from_svg.
  apply contained_bind; [apply contained_exists |]. intros found.
  destruct (negb found).
  - apply contained_bind; [| intros; apply contained_ret].
    apply contained_print. discriminate.
  - apply contained_bind; [| intros; apply contained_ret].
    apply contained_for_each. intros size Hs.
    apply contained_bind.
    + apply contained_svg2png. exists size. split; [exact Hs | reflexivity].
    + intros _. apply contained_print. discriminate.
Qed.

(** The part of [main] between its two messages. *)
Lemma main_body_contained env (HAS : bool) :
  contained env (λ line, line ≠ done_line)
    (if HAS then
       success ← create_icons_from_svg env;
       if negb success then
         print "Falling back to PIL..." ≫= λ _,
         create_icons_with_pil env ≫= λ _, mret tt
       else mret tt
     else create_icons_with_pil env ≫= λ _, mret tt).
Proof.
  destruct HAS.
  - apply contained_bind; [apply create_icons_from_svg_contained |].
    intros success. destruct (negb success); [| apply contained_ret].
    apply contained_bind; [apply contained_print; discriminate |]. intros _.
    apply contained_bind; [apply create_icons_with_pil_contained |].
    intros; apply contained_ret.
  - apply contained_bind; [apply create_icons_with_pil_contained |].
    intros; apply contained_ret.
Qed.

(** An opening message, a contained action, a closing message. *)
Lemma bracket_effects env (body : IO unit) (first : string)
    (w w' : World) (r : result unit) :
  contained env (λ line, line ≠ done_line) body →
  first ≠ done_line →
  (print first ≫= λ _, body ≫= λ _, print done_line) w = (r, w') →
  (∀ path, ¬ is_output env path → fs w' !! path = fs w !! path) ∧
  ∃ lines, Forall (λ line, line ≠ done_line) lines ∧
    ((r = Ok tt ∧ stdout w' = stdout w ++ lines ++ [done_line]) ∨
     (∃ e, r = Raise e ∧ stdout w' = stdout w ++ lines)).
Proof.
  intros Hbody Hfirst H. unfold mbind, IO_bind, print in H. cbn [fs stdout] in H.
  destruct (body _) as [[[] | e] w1] eqn:E;
    destruct (Hbody _ _ _ E) as (F & lines & S & Hall); cbn [fs stdout] in *;
    injection H as <- <-; cbn [fs stdout].
  - split; [exact F |]. exists (first :: lines). split; [constructor; assumption |].
    left. split; [reflexivity |]. rewrite S, <- !app_assoc. reflexivity.
  - split; [exact F |]. exists (first :: lines). split; [constructor; assumption |].
    right. exists e. split; [reflexivity |]. rewrite S, <- !app_assoc. reflexivity.
Qed.

(** What the script prints and touches after the import, whatever its
    outcome. *)
Lemma after_import_effects env (importable : bool) (w w' : World) (r : result unit) :
  after_import env importable w = (r, w') →
  (∀ path, ¬ is_output env path → fs w' !! path = fs w !! path) ∧
  ∃ lines, Forall (λ line, line ≠ done_line) lines ∧
    ((r = Ok tt ∧ stdout w' = stdout w ++ lines ++ [done_line]) ∨
     (∃ e, r = Raise e ∧ stdout w' = stdout w ++ lines)).
Proof.
  intros H. destruct importable.
  - apply (bracket_effects env _ "Creating BlueHawk API Key Finder icons..." w w' r
             (main_body_contained env true)); [discriminate | exact H].
  - pose proof (bracket_effects env _ "Creating BlueHawk API Key Finder icons..."
             {| fs := fs w;
                stdout := stdout w ++ ["cairosvg not available, using PIL fallback"] |}
             w' r (main_body_contained env false) ltac:(discriminate) H)
      as (F & lines & Hall & Hcase).
    cbn [fs stdout] in *. split; [exact F |].
    exists ("cairosvg not available, using PIL fallback" :: lines).
    split; [constructor; [discriminate | exact Hall] |].
    destruct Hcase as [[-> S] | (e & -> & S)]; [left | right; exists e];
      (split; [reflexivity |]); rewrite S, <- !app_assoc; reflexivity.
Qed.

(** What [run] prints and touches, whatever its outcome. *)
Lemma run_effects env (import_cairosvg : result unit) (w w' : World)
    (r : result unit) :
  run env import_cairosvg w = (r, w') →
  (∀ path, ¬ is_output env path → fs w' !! path = fs w !! path) ∧
  ∃ lines, Forall (λ line, line ≠ done_line) lines ∧
    ((r = Ok tt ∧ stdout w' = stdout w ++ lines ++ [done_line]) ∨
     (∃ e, r = Raise e ∧ stdout w' = stdout w ++ lines)).
Proof.
  intros H.
  destruct import_cairosvg as [u | e];
    [exact (after_import_effects env true w w' r H) |].
  destruct e;
    try (exact (after_import_effects env false w w' r H));
    (injection H as <- <-; split; [reflexivity |]; exists []; split; [constructor |];
     right; eexists; split; [reflexivity | symmetry; apply app_nil_r]).
Qed.

(** X9. No file other than [icon16.png], [icon48.png] and [icon128.png] is
    created, changed or removed by a run, however it ends; in particular
    [icon.svg] is left as it was, whatever the script directory. *)
Theorem run_touches_only_the_icons env (import_cairosvg : result unit)
    (w w' : World) (r : result unit) :
  run env import_cairosvg w = (r, w') →
  (∀ path, ¬ is_output env path → fs w' !! path = fs w !! path) ∧
  fs w' !! svg_path env = fs w !! svg_path env.
Proof.
  intros H. destruct (run_effects env import_cairosvg w w' r H) as (F & _).
  split; [exact F |]. apply F.
  intros (size & Hs & Heq). symmetry in Heq.
  exact (output_path_ne_svg env size Hs Heq).
Qed.

Lemma run_touches_only_the_icons_witness :
  ∃ r w', run env0 (Ok tt) w_svg = (r, w') ∧
          fs w' !! svg_path env0 = Some (Data "<svg/>").
Proof.
  destruct (run env0 (Ok tt) w_svg) as [r w'] eqn:E.
  exists r, w'. split; [reflexivity |].
  rewrite (proj2 (run_touches_only_the_icons env0 (Ok tt) w_svg w' r E)).
  reflexivity.
Defined.

(** X10. A run only adds lines to the output, and the closing message
    "Done! Icons created successfully." is among them exactly when the run
    ends normally; it is then the last line. *)
Theorem done_printed_iff_run_ends_normally env (import_cairosvg : result unit)
    (w w' : World) (r : result unit) :
  run env import_cairosvg w = (r, w') →
  ∃ lines, stdout w' = stdout w ++ lines ∧
           (In done_line lines ↔ r = Ok tt) ∧
           (r = Ok tt → last lines = Some done_line).
Proof.
  intros H. destruct (run_effects env import_cairosvg w w' r H)
    as (_ & lines & Hall & [[-> S] | (e & -> & S)]).
  - exists (lines ++ [done_line]). split; [exact S |]. split.
    + split; [reflexivity |]. intros _. apply in_or_app. right. left. reflexivity.
    + intros _. apply last_snoc.
  - exists lines. split; [exact S |]. split; [| discriminate].
    split; [| discriminate]. intros Hin.
    rewrite Forall_forall in Hall. exfalso.
    apply (Hall done_line); [apply list_elem_of_In; exact Hin | reflexivity].
Qed.

Lemma done_printed_iff_run_ends_normally_witness :
  ∃ r w' lines, run env_no_render (Ok tt) w_svg = (r, w') ∧
                stdout w' = stdout w_svg ++ lines ∧ ¬ In done_line lines.
Proof.
  destruct (run env_no_render (Ok tt) w_svg) as [r w'] eqn:E.
  destruct (done_printed_iff_run_ends_normally env_no_render (Ok tt) w_svg w' r E)
    as (lines & S & Hiff & _).
  exists r, w', lines. split; [reflexivity |]. split; [exact S |].
  intros Hin. apply Hiff in Hin. subst r.
  vm_compute in E. discriminate E.
Defined.

(** ** Further properties: failures and repeated runs *)

(** X11. When [icon.svg] exists and cairosvg cannot render it, the run stops with
    the rendering error right after the opening message: no file is written
    and the procedural fallback is not tried. *)
Theorem render_failure_is_not_recovered env (w : World) (src : Blob) :
  fs w !! svg_path env = Some src →
  renders env src = false →
  run env (Ok tt) w =
    (Raise (ValueError "cannot render the SVG source"),
     {| fs := fs w;
        stdout := stdout w ++ ["Creating BlueHawk API Key Finder icons..."] |}).
Proof.
  intros Hsrc Hr.
  unfold run, after_import, main, create_icons_from_svg, for_each, mbind, IO_bind, mret, IO_ret,
    os_path.exists_, cairosvg_svg2png, print.
  cbn [fs stdout].
  rewrite bool_decide_eq_true_2 by (rewrite Hsrc; eauto).
  cbn [negb fs stdout]. rewrite Hsrc, Hr. reflexivity.
Qed.

Lemma render_failure_is_not_recovered_witness :
  fs w_svg !! svg_path env_no_render = Some (Data "<svg/>") ∧
  renders env_no_render (Data "<svg/>") = false ∧
  fst (run env_no_render (Ok tt) w_svg)
    = Raise (ValueError "cannot render the SVG source").
Proof.
  split; [reflexivity |]. split; [reflexivity |].
  rewrite (render_failure_is_not_recovered env_no_render w_svg (Data "<svg/>")
             eq_refl eq_refl).
  reflexivity.
Defined.

(** X12. The procedural path writes its icons in the order 16, 48, 128 and stops
    at the first file it may not write: what it leaves is the first [n]
    icons and their [n] lines, it answers [True] exactly when [n] is 3, and
    otherwise raises the write error of the file of rank [n]. *)
Theorem procedural_path_writes_a_prefix env (w w' : World) (r : result bool) :
  create_icons_with_pil env w = (r, w') →
  ∃ i16 i48 i128 (n : nat),
    create_hawk_icon_pil 16 = Ok i16 ∧
    create_hawk_icon_pil 48 = Ok i48 ∧
    create_hawk_icon_pil 128 = Ok i128 ∧
    (n ≤ 3)%nat ∧
    fs w' = write_icons env (take n [(16, i16); (48, i48); (128, i128)]) (fs w) ∧
    stdout w' = stdout w ++ take n procedural_lines ∧
    (r = Ok true ↔ n = 3%nat) ∧
    ((n < 3)%nat →
       r = Raise (OSError "Permission denied") ∧
       writable env (output_path env (nth n sizes 0)) = false).
Proof.
  destruct icons_exist as (i16 & i48 & i128 & E16 & E48 & E128).
  intros H. exists i16, i48, i128.
  unfold create_icons_with_pil, for_each, mbind, IO_bind, mret, IO_ret, lift,
    Image_save, write_file, print in H.
  rewrite E16, E48, E128 in H.
  destruct (writable env (output_path env 16)) eqn:W16;
    [destruct (writable env (output_path env 48)) eqn:W48;
      [destruct (writable env (output_path env 128)) eqn:W128 |] |];
    cbn [fs stdout] in H; injection H as <- <-; cbn [fs stdout].
  - exists 3%nat. split_and!; try assumption; try reflexivity; try lia.
    + rewrite <- !app_assoc. reflexivity.
    + tauto.
  - exists 2%nat. split_and!; try assumption; try reflexivity; try lia.
    + rewrite <- !app_assoc. reflexivity.
    + split; [discriminate | lia].
    + intros _. split; [reflexivity | exact W128].
  - exists 1%nat. split_and!; try assumption; try reflexivity; try lia.
    + split; [discriminate | lia].
    + intros _. split; [reflexivity | exact W48].
  - exists 0%nat. split_and!; try assumption; try reflexivity; try lia.
    + symmetry. apply app_nil_r.
    + split; [discriminate | lia].
    + intros _. split; [reflexivity | exact W16].
Qed.

Lemma procedural_path_writes_a_prefix_witness :
  ∃ r w', create_icons_with_pil env_16_only w0 = (r, w') ∧
          r = Raise (OSError "Permission denied") ∧
          stdout w' = ["Created icon16.png using PIL"].
Proof.
  destruct (create_icons_with_pil env_16_only w0) as [r w'] eqn:E.
  exists r, w'. split; [reflexivity |].
  destruct (procedural_path_writes_a_prefix env_16_only w0 w' r E)
    as (i16 & i48 & i128 & n & _ & _ & _ & _ & _ & _ & _ & _).
  vm_compute in E. injection E as <- <-. split; reflexivity.
Defined.

(** A vector path that answers did render the source and write every icon. *)
Lemma create_icons_from_svg_inv env (w w' : World) (src : Blob) (b : bool) :
  fs w !! svg_path env = Some src →
  create_icons_from_svg env w = (Ok b, w') →
  renders env src = true ∧ outputs_writable env.
Proof.
  intros Hsrc H.
  assert (H16 : In 16 sizes) by (simpl; lia).
  assert (H48 : In 48 sizes) by (simpl; lia).
  assert (H128 : In 128 sizes) by (simpl; lia).
  unfold create_icons_from_svg, for_each, mbind, IO_bind, mret, IO_ret,
    os_path.exists_, cairosvg_svg2png, write_file, print in H.
  rewrite bool_decide_eq_true_2 in H by (rewrite Hsrc; eauto).
  cbn [negb fs stdout] in H. rewrite Hsrc in H.
  destruct (renders env src) eqn:Hr; [| discriminate H].
  destruct (writable env (output_path env 16)) eqn:W16; [| discriminate H].
  cbn [fs stdout] in H.
  rewrite lookup_insert_ne in H by (apply output_path_ne_svg; exact H16).
  rewrite Hsrc, Hr in H.
  destruct (writable env (output_path env 48)) eqn:W48; [| discriminate H].
  cbn [fs stdout] in H.
  rewrite !lookup_insert_ne in H by (apply output_path_ne_svg; assumption).
  rewrite Hsrc, Hr in H.
  destruct (writable env (output_path env 128)) eqn:W128; [| discriminate H].
  split; [reflexivity |].
  intros size Hs. destruct (sizes_cases size Hs) as [-> | [-> | ->]]; assumption.
Qed.

(** A run that took the procedural path and ended normally could write
    every icon file. *)
Lemma after_import_procedural_writable env (importable : bool) (w w' : World) :
  importable = false ∨ fs w !! svg_path env = None →
  after_import env importable w = (Ok tt, w') →
  outputs_writable env.
Proof.
  intros Hpath Hrun.
  unfold after_import, main, mbind, IO_bind, mret, IO_ret, print in Hrun.
  destruct importable.
  - destruct Hpath as [Hpath | Habs]; [discriminate |].
    rewrite create_icons_from_svg_absent in Hrun by exact Habs.
    cbn [negb fs stdout] in Hrun.
    destruct (create_icons_with_pil env _) as [[b | e] w1] eqn:Hpil;
      [| discriminate].
    apply create_icons_with_pil_inv in Hpil as (Hw & _). exact Hw.
  - cbn [fs stdout] in Hrun.
    destruct (create_icons_with_pil env _) as [[b | e] w1] eqn:Hpil;
      [| discriminate].
    apply create_icons_with_pil_inv in Hpil as (Hw & _). exact Hw.
Qed.

(** Writing the three icons twice is writing them once. *)
Lemma insert_icons_twice (m : gmap string Blob) (p q r : string) (a b c : Blob) :
  <[r := c]> (<[q := b]> (<[p := a]> (<[r := c]> (<[q := b]> (<[p := a]> m)))))
  = <[r := c]> (<[q := b]> (<[p := a]> m)).
Proof.
  apply map_eq. intros k. rewrite !lookup_insert.
  repeat case_decide; reflexivity.
Qed.

(** Repeating what follows the import. *)
Lemma after_import_twice env (importable : bool) (w w1 : World) :
  after_import env importable w = (Ok tt, w1) →
  ∃ w2, after_import env importable w1 = (Ok tt, w2) ∧ fs w2 = fs w1.
Proof.
  intros Hrun.
  assert (Hsvg : fs w1 !! svg_path env = fs w !! svg_path env).
  { destruct (after_import_effects env importable w w1 _ Hrun) as (F & _). apply F.
    intros (size & Hs & Heq). symmetry in Heq.
    exact (output_path_ne_svg env size Hs Heq). }
  destruct importable; [destruct (fs w !! svg_path env) as [src |] eqn:Hsrc |].
  - (* vector path *)
    unfold after_import, main, mbind, IO_bind, mret, IO_ret, print in Hrun.
    cbn [fs stdout] in Hrun.
    destruct (create_icons_from_svg env _) as [[b | e] wa] eqn:E; [| discriminate].
    pose proof (λ H, create_icons_from_svg_true env _ _ src b H E) as Hb.
    specialize (Hb Hsrc). subst b.
    pose proof (λ H, create_icons_from_svg_inv env _ _ src true H E) as Hinv.
    destruct (Hinv Hsrc) as [Hr Hw].
    erewrite create_icons_from_svg_present in E;
      [| exact Hsrc | exact Hr | exact Hw].
    injection E as <-. cbn [negb fs stdout] in Hrun. injection Hrun as <-.
    cbn [fs stdout] in Hsvg.
    eexists. split.
    + unfold after_import, main, mbind, IO_bind, mret, IO_ret, print. cbn [fs stdout].
      erewrite create_icons_from_svg_present;
        [| exact Hsvg | exact Hr | exact Hw].
      cbn [negb fs stdout]. reflexivity.
    + cbn [fs]. apply insert_icons_twice.
  - (* fallback *)
    pose proof (after_import_procedural_writable env true w w1 (or_intror Hsrc) Hrun) as Hw.
    pose proof (after_import_procedural env true w w1 (or_intror Hsrc) Hrun)
      as (i16 & i48 & i128 & E16 & E48 & E128 & Hfs).
    destruct (create_icons_with_pil_spec env
      {| fs := fs w1;
         stdout := ((stdout w1 ++ ["Creating BlueHawk API Key Finder icons..."])
                      ++ ["SVG file not found: " +:+ svg_path env])
                      ++ ["Falling back to PIL..."] |})
      as (j16 & j48 & j128 & J16 & J48 & J128 & e1 & e2 & e3 & x1 & x2 & x3 & Hpil).
    rewrite !Hw in Hpil by (simpl; lia).
    eexists. split.
    + unfold after_import, main, mbind, IO_bind, mret, IO_ret, print. cbn [fs stdout].
      rewrite create_icons_from_svg_absent by exact Hsvg.
      cbn [negb fs stdout]. rewrite Hpil. cbn [fs stdout]. reflexivity.
    + cbn [fs]. rewrite Hfs.
      assert (j16 = i16) as -> by congruence.
      assert (j48 = i48) as -> by congruence.
      assert (j128 = i128) as -> by congruence.
      apply insert_icons_twice.
  - (* no capability *)
    pose proof (after_import_procedural_writable env false w w1 (or_introl eq_refl) Hrun)
      as Hw.
    pose proof (after_import_procedural env false w w1 (or_introl eq_refl) Hrun)
      as (i16 & i48 & i128 & E16 & E48 & E128 & Hfs).
    destruct (create_icons_with_pil_spec env
      {| fs := fs w1;
         stdout := (stdout w1 ++ ["cairosvg not available, using PIL fallback"])
                      ++ ["Creating BlueHawk API Key Finder icons..."] |})
      as (j16 & j48 & j128 & J16 & J48 & J128 & e1 & e2 & e3 & x1 & x2 & x3 & Hpil).
    rewrite !Hw in Hpil by (simpl; lia).
    eexists. split.
    + unfold after_import, main, mbind, IO_bind, mret, IO_ret, print. cbn [fs stdout].
      rewrite Hpil. cbn [fs stdout]. reflexivity.
    + cbn [fs]. rewrite Hfs.
      assert (j16 = i16) as -> by congruence.
      assert (j48 = i48) as -> by congruence.
      assert (j128 = i128) as -> by congruence.
      apply insert_icons_twice.
Qed.


(** X13. A run that ended normally can be repeated at once: the second run ends
    normally too and leaves every file exactly as the first run left it. *)
Theorem second_run_changes_no_file env (import_cairosvg : result unit)
    (w w1 : World) :
  run env import_cairosvg w = (Ok tt, w1) →
  ∃ w2, run env import_cairosvg w1 = (Ok tt, w2) ∧ fs w2 = fs w1.
Proof.
  destruct import_cairosvg as [u | e];
    [exact (after_import_twice env true w w1) |].
  destruct e; try discriminate.
  exact (after_import_twice env false w w1).
Qed.

Lemma second_run_changes_no_file_witness :
  ∃ w1 w2, run env0 (Ok tt) w_svg = (Ok tt, w1) ∧
           run env0 (Ok tt) w1 = (Ok tt, w2) ∧ fs w2 = fs w1.
Proof.
  assert (E : run env0 (Ok tt) w_svg = (Ok tt, snd (run env0 (Ok tt) w_svg)))
    by (vm_compute; reflexivity).
  destruct (second_run_changes_no_file env0 (Ok tt) w_svg _ E) as (w2 & Hrun2 & Hfs).
  exists (snd (run env0 (Ok tt) w_svg)), w2. split; [exact E |]. split; assumption.
Defined.
